(** * LFDT license compliance check: a shallow embedding of
      [verify-lfdt-licenses.js] and the properties of its decision engine.

    Conventions of the embedding.

    - JavaScript strings are byte strings ([string]).  Every string
      operation of the script looks for ASCII characters only ([^], [~],
      [/], [?], [.], word characters), so working on UTF-8 bytes or on
      UTF-16 code units gives the same cuts.
    - Numbers read from the GitHub answer are integers ([Num z]), or are
      missing ([Undefined]); an age computed from an unreadable date is
      [NaN].  Comparisons with [>=] follow JavaScript: anything that is not
      a number compares false.  Other JSON values in the place of a counter
      are outside the embedding.
    - The outside world (the npm registry, the GitHub API, the file system,
      the clock) is a record of oracles, [World].  An oracle answers [None]
      where the corresponding [execSync], [readFileSync] or [JSON.parse]
      throws.  An oracle is a function: within a run the same question gets
      the same answer.
    - Exceptions and [process.exit] are explicit: computations run in a small
      monad that carries the console log and may stop with an [abort]. *)

From Stdlib Require Import String Ascii ZArith NArith List Lia Bool.
From Stdlib Require Import DecimalString Permutation.
Import ListNotations.

Local Open Scope string_scope.
Local Open Scope Z_scope.

(** ** String primitives of JavaScript used by the script *)

Module Str.

(** [s.startsWith(p)], on bytes. *)
Fixpoint startsWith (p s : string) : bool :=
  match p with
  | EmptyString => true
  | String a p' =>
      match s with
      | EmptyString => false
      | String b s' => Ascii.eqb a b && startsWith p' s'
      end
  end.

(** [s.includes(p)]. *)
Fixpoint includes (p s : string) : bool :=
  startsWith p s ||
  match s with
  | EmptyString => false
  | String _ s' => includes p s'
  end.

(** [s.endsWith(p)]. *)
Fixpoint endsWith (p s : string) : bool :=
  String.eqb p s ||
  match s with
  | EmptyString => false
  | String _ s' => endsWith p s'
  end.

(** [s.slice(0, -n)]: [s] without its last [n] characters. *)
Definition dropLast (n : nat) (s : string) : string :=
  substring 0 (String.length s - n) s.

(** Membership of a character in a character class given by a predicate,
    and the longest prefix of a string inside the class (what a greedy
    [[...]+] consumes): the prefix and the rest. *)
Fixpoint span (p : ascii -> bool) (s : string) : string * string :=
  match s with
  | EmptyString => (EmptyString, EmptyString)
  | String c s' =>
      if p c then let (a, b) := span p s' in (String c a, b)
      else (EmptyString, s)
  end.

(** Drop a literal prefix, when it is there. *)
Fixpoint dropPrefix (p s : string) : option string :=
  match p with
  | EmptyString => Some s
  | String a p' =>
      match s with
      | EmptyString => None
      | String b s' => if Ascii.eqb a b then dropPrefix p' s' else None
      end
  end.

(** Characters. *)
Definition isChar (c d : ascii) : bool := Ascii.eqb c d.

Definition inRange (lo hi c : ascii) : bool :=
  (N.leb (N_of_ascii lo) (N_of_ascii c)) && (N.leb (N_of_ascii c) (N_of_ascii hi)).

(** [\w] is [[A-Za-z0-9_]]. *)
Definition isWord (c : ascii) : bool :=
  inRange "a" "z" c || inRange "A" "Z" c || inRange "0" "9" c || isChar "_" c.

Definition isDigit (c : ascii) : bool := inRange "0" "9" c.

(** [s.replace(/\.git$/, '')]: the pattern is anchored at the end of the
    string (no [m] flag), so only a final [.git] is removed. *)
Definition stripDotGit (s : string) : string :=
  if endsWith ".git" s then dropLast 4 s else s.

(** [s.replace(/[\^~]/, '')]: the pattern has no [g] flag, so only the first
    character that is a caret or a tilde is removed. *)
Fixpoint replaceDecorator (s : string) : string :=
  match s with
  | EmptyString => EmptyString
  | String c s' =>
      if isChar "^" c || isChar "~" c then s'
      else String c (replaceDecorator s')
  end.

(** Number of caret and tilde characters of a string. *)
Fixpoint countDecorators (s : string) : nat :=
  match s with
  | EmptyString => O
  | String c s' =>
      ((if isChar "^" c || isChar "~" c then 1 else 0) + countDecorators s')%nat
  end.

End Str.

(** ** JavaScript numbers as the script meets them *)

Inductive jsnum : Type :=
| Num (z : Z)
| NaN
| Undefined.

(** [x >= n] for an integer literal [n]: [undefined] converts to [NaN], and
    every comparison with [NaN] is false. *)
Definition js_ge (x : jsnum) (n : Z) : bool :=
  match x with
  | Num z => n <=? z
  | NaN | Undefined => false
  end.

(** [`${x}`] for the integers below 10^21 in magnitude (beyond that
    JavaScript switches to the exponent notation). *)
Definition js_toString (x : jsnum) : string :=
  match x with
  | Num z => NilEmpty.string_of_int (Z.to_int z)
  | NaN => "NaN"
  | Undefined => "undefined"
  end.

(** ** Policy store *)

(** [APPROVED_LICENSES]: the licenses approved subject to the adoption
    check.  A JavaScript [Set] built from this array; [has] compares
    strings exactly. *)
Definition APPROVED_LICENSES : list string :=
  [ "BSD-2-Clause"; "BSD-2-Clause-FreeBSD"; "BSD-3-Clause"; "MIT"; "ISC";
    "Python-2.0"; "BSL-1.0"; "Boost"; "bzip2-1.0.6"; "OLDAP-2.7";
    "OLDAP-2.8"; "PostgreSQL"; "TCL"; "W3C"; "X11"; "Zlib"; "OFL-1.0";
    "OFL-1.1"; "CC-BY-1.0"; "CC-BY-2.0"; "CC-BY-2.5"; "CC-BY-3.0";
    "Public Domain"; "Unlicense" ].

Definition Set_has (s : list string) (x : string) : bool :=
  existsb (String.eqb x) s.

(** The test of the first branch of [checkPackageCompliance]:
    [license === 'Apache-2.0' || license === 'Apache 2.0']. *)
Definition isAutoApproved (license : string) : bool :=
  String.eqb license "Apache-2.0" || String.eqb license "Apache 2.0".

(** ** Results *)

(** The four values the [status] field takes: ['unknown'] (the initial
    value), ['approved'], ['needs-review'], ['rejected']. *)
Inductive Status : Type :=
| StatusUnknown
| StatusApproved
| StatusNeedsReview
| StatusRejected.

Definition status_string (s : Status) : string :=
  match s with
  | StatusUnknown => "unknown"
  | StatusApproved => "approved"
  | StatusNeedsReview => "needs-review"
  | StatusRejected => "rejected"
  end.

(** The object built by [getGitHubStats].  [created] is the creation time in
    milliseconds, [None] for an invalid date. *)
Record GitHubStats : Type := mkStats {
  stars : jsnum;
  forks : jsnum;
  created : option Z;
  age : jsnum;
  actualRepo : string
}.

(** The object built by [checkPackageCompliance]; [None] is [null]. *)
Record Result : Type := mkResult {
  name : string;
  version : string;
  license : string;
  repo : option string;
  githubStats : option GitHubStats;
  status : Status;
  reason : string
}.

Definition set_verdict (r : Result) (s : Status) (why : string) : Result :=
  {| name := name r; version := version r; license := license r;
     repo := repo r; githubStats := githubStats r;
     status := s; reason := why |}.

(** The [if / else if / else] chain that ends [checkPackageCompliance]. *)
Definition apply_policy (result : Result) : Result :=
  let license := license result in
  if isAutoApproved license then
    set_verdict result StatusApproved "Apache-2.0 license (automatically approved)"
  else if Set_has APPROVED_LICENSES license then
    match githubStats result with
    | Some githubStats =>
        if js_ge (age githubStats) 12
           && (js_ge (stars githubStats) 10 || js_ge (forks githubStats) 10)
        then
          set_verdict result StatusApproved
            (license ++ " license with substantial use ("
             ++ js_toString (stars githubStats) ++ " stars, "
             ++ js_toString (forks githubStats) ++ " forks, "
             ++ js_toString (age githubStats) ++ " months old)")
        else
          set_verdict result StatusNeedsReview
            (license ++ " license but insufficient GitHub adoption ("
             ++ js_toString (stars githubStats) ++ " stars, "
             ++ js_toString (forks githubStats) ++ " forks, "
             ++ js_toString (age githubStats) ++ " months old)")
    | None =>
        set_verdict result StatusNeedsReview
          (license ++ " license (approved) but unable to verify substantial use")
    end
  else
    set_verdict result StatusRejected
      (license ++ " license is not on the LFDT approved list").

(** ** The outside world *)

(** What the script reads of the answer of [gh api repos/<repo>]: the two
    counters and the creation date (milliseconds, [None] when the field
    does not parse as a date). *)
Record RepoData : Type := mkRepoData {
  stargazers_count : jsnum;
  forks_count : jsnum;
  created_at : option Z
}.

(** A value found in a manifest where a version is expected.  Only a string
    has a [replace] method; every other JSON value (number, boolean, null,
    array, object) is [JNotString]. *)
Inductive json_value : Type :=
| JString (s : string)
| JNotString.

(** An object as a list of its own properties in creation order; the
    operations below keep the keys distinct. *)
Definition jsobject : Type := list (string * json_value).

(** The manifest fields that take part in the audit ([name] and [version]
    are only printed): for each of the two fields, the own properties that
    the spread copies.  A missing field spreads like the empty object. *)
Record PackageJson : Type := mkPackageJson {
  dependencies : jsobject;
  devDependencies : jsobject
}.

(** What [JSON.parse] gives for a manifest: [null], or any other value,
    seen through the two fields read from it (a number, a string or a
    boolean has neither field, like an object without them). *)
Inductive parsed : Type :=
| ParsedNull
| ParsedObject (p : PackageJson).

Record World : Type := mkWorld {
  (** [execSync(`npm view "<cleanSpec>" <field> ...`).trim()] *)
  npm_view : string -> string -> option string;
  (** [JSON.parse(execSync(`gh api repos/<repoName> ...`))] *)
  gh_api_repos : string -> option RepoData;
  (** [new Date()], in milliseconds, when the answer for a repository
      name is turned into statistics *)
  clock : string -> Z;
  (** [JSON.parse] of [gh api repos/<owner>/<repo>/contents/package.json] *)
  gh_api_contents : string -> string -> option parsed;
  (** [JSON.parse] of [curl -s https://raw.githubusercontent.com/<owner>/<repo>/main/package.json] *)
  curl_raw : string -> string -> option parsed;
  (** [JSON.parse(fs.readFileSync(path.join(source, 'package.json')))] *)
  read_local : string -> option parsed
}.

(** ** Exceptions, exit and the console *)

(** The errors the script can raise.  The text of an error raised by the
    system (a failed command, an unreadable file, a parse error) is not
    modelled; each constructor stands for the error of one place. *)
Inductive error : Type :=
| InvalidGitHubUrl      (* 'Invalid GitHub URL format. Use: ...' *)
| FailedToFetch         (* 'Failed to fetch package.json from GitHub: ...' *)
| ReadFailed            (* readFileSync or JSON.parse of the local manifest *)
| NullManifest          (* TypeError: reading 'dependencies' of null *)
| ReplaceNotAFunction.  (* TypeError: version.replace is not a function *)

Inductive abort : Type :=
| Throw (e : error)
| Exit (code : Z).

Definition outcome (A : Type) : Type := (abort + A)%type.

(** The lines written to the console that matter for the verdict of a run
    (the banner, the summary counts and the per-bucket listings are
    presentation and are not recorded). *)
Inductive event : Type :=
| LogUsage
| LogFetching (owner repo : string)
| LogErrorReading (e : error)
| LogChecking (name : string)
| LogMark (s : Status)
| LogErrorFound (n : nat)
| LogWarning (n : nat)
| LogSuccess
| LogError (e : error).

(** ** Metadata lookups *)

(** [getPackageLicense]. *)
Definition getPackageLicense (w : World) (packageSpec : string) : string :=
  let cleanSpec := Str.replaceDecorator packageSpec in
  match npm_view w cleanSpec "license" with
  | Some license => if String.eqb license EmptyString then "Unknown" else license
  | None => "Unknown"
  end.

(** The pattern [/github\.com[/:]([\w-]+\/[\w.-]+)/] tried at the start of
    [s].  Both groups are greedy and the characters that must follow them
    are outside their classes, so the longest runs are the only
    candidates. *)
Definition matchRepoHere (s : string) : option string :=
  match Str.dropPrefix "github.com" s with
  | Some (String c rest) =>
      if Str.isChar "/" c || Str.isChar ":" c then
        let (owner, r1) := Str.span (fun x => Str.isWord x || Str.isChar "-" x) rest in
        match owner, r1 with
        | String _ _, String d r2 =>
            if Str.isChar "/" d then
              let (nm, _) :=
                Str.span (fun x => Str.isWord x || Str.isChar "." x || Str.isChar "-" x) r2 in
              match nm with
              | String _ _ => Some (owner ++ "/" ++ nm)
              | EmptyString => None
              end
            else None
        | _, _ => None
        end
      else None
  | _ => None
  end.

(** [repoOutput.match(...)]: the leftmost position where the pattern
    matches; the value is the first group. *)
Fixpoint matchRepo (s : string) : option string :=
  match matchRepoHere s with
  | Some m => Some m
  | None =>
      match s with
      | EmptyString => None
      | String _ s' => matchRepo s'
      end
  end.

(** [getPackageRepo]. *)
Definition getPackageRepo (w : World) (packageSpec : string) : option string :=
  let cleanSpec := Str.replaceDecorator packageSpec in
  match npm_view w cleanSpec "repository.url" with
  | Some repoOutput =>
      match matchRepo repoOutput with
      | Some m => Some (Str.stripDotGit m)
      | None => None
      end
  | None => None
  end.

(** The names tried by [getGitHubStats], in order. *)
Definition repoVariations (repo : string) : list string :=
  [ repo;
    if Str.endsWith ".js" repo then repo else repo ++ ".js";
    if Str.endsWith ".js" repo then Str.dropLast 3 repo else repo;
    if Str.endsWith "-js" repo then repo else repo ++ "-js";
    if Str.endsWith "-js" repo then Str.dropLast 3 repo else repo ].

(** [Math.floor((new Date() - new Date(created_at)) / (1000*60*60*24*30))],
    in exact arithmetic; the doubles of the script give the same quotient
    while the difference stays below 2^53 milliseconds. *)
Definition ageInMonths (now : Z) (created_at : option Z) : jsnum :=
  match created_at with
  | Some c => Num ((now - c) / (1000 * 60 * 60 * 24 * 30))
  | None => NaN
  end.

(** The loop of [getGitHubStats]: the first variation that resolves. *)
Fixpoint firstStats (w : World) (names : list string) : option GitHubStats :=
  match names with
  | [] => None
  | repoName :: rest =>
      match gh_api_repos w repoName with
      | Some data =>
          Some {| stars := stargazers_count data;
                  forks := forks_count data;
                  created := created_at data;
                  age := ageInMonths (clock w repoName) (created_at data);
                  actualRepo := repoName |}
      | None => firstStats w rest
      end
  end.

(** [getGitHubStats]; [!repo] holds for [null] and for the empty string. *)
Definition getGitHubStats (w : World) (repo : option string) : option GitHubStats :=
  match repo with
  | None => None
  | Some r => if String.eqb r EmptyString then None else firstStats w (repoVariations r)
  end.

(** ** The evaluator *)

(** [checkPackageCompliance].  Outside a [try], [version.replace] throws
    when [version] is not a string.  The comparisons and the templates of
    the policy are outside a [try] as well; on the counters of the
    embedding (integers, or missing) they do not throw.  A counter that
    cannot be converted to a primitive value, on which they would, is
    outside the embedding. *)
Definition checkPackageCompliance (w : World) (packageName : string)
    (version : json_value) : outcome Result :=
  match version with
  | JNotString => inl (Throw ReplaceNotAFunction)
  | JString v =>
      let cleanVersion := Str.replaceDecorator v in
      let packageSpec := packageName ++ "@" ++ cleanVersion in
      let license := getPackageLicense w packageSpec in
      let repo := getPackageRepo w packageSpec in
      let githubStats := getGitHubStats w repo in
      let result :=
        {| name := packageName; version := cleanVersion; license := license;
           repo := repo; githubStats := githubStats;
           status := StatusUnknown; reason := EmptyString |} in
      inr (apply_policy result)
  end.

(** ** Objects: property order, spread, [Object.entries] *)

(** The value of a string of decimal digits. *)
Fixpoint digitsValue (acc : N) (s : string) : option N :=
  match s with
  | EmptyString => Some acc
  | String c s' =>
      if Str.isDigit c
      then digitsValue (10 * acc + (N_of_ascii c - 48))%N s'
      else None
  end.

(** A property key is an array index when it is the canonical decimal
    writing of an integer below 2^32 - 1. *)
Definition arrayIndex (k : string) : option N :=
  match k with
  | EmptyString => None
  | String c rest =>
      if Str.isChar "0" c && negb (String.eqb rest EmptyString) then None
      else
        match digitsValue 0%N k with
        | Some n => if (n <? 4294967295)%N then Some n else None
        | None => None
        end
  end.

Section Properties.
Context {V : Type}.

(** [o[k] = v]: an existing property keeps its place, a new one goes
    last. *)
Fixpoint obj_set (o : list (string * V)) (k : string) (v : V) : list (string * V) :=
  match o with
  | [] => [(k, v)]
  | (k', v') :: o' =>
      if String.eqb k k' then (k, v) :: o' else (k', v') :: obj_set o' k v
  end.

Fixpoint insertByIndex (n : N) (e : string * V) (l : list (N * (string * V)))
  : list (N * (string * V)) :=
  match l with
  | [] => [(n, e)]
  | (m, e') :: l' =>
      if (n <=? m)%N then (n, e) :: l else (m, e') :: insertByIndex n e l'
  end.

(** The properties whose key is an array index, in ascending order of
    the index. *)
Fixpoint indexProperties (o : list (string * V)) : list (N * (string * V)) :=
  match o with
  | [] => []
  | (k, v) :: o' =>
      match arrayIndex k with
      | Some n => insertByIndex n (k, v) (indexProperties o')
      | None => indexProperties o'
      end
  end.

Definition isNamed (e : string * V) : bool :=
  match arrayIndex (fst e) with Some _ => false | None => true end.

(** [Object.entries(o)]: array indices first, in ascending order, then
    the other keys in creation order. *)
Definition Object_entries (o : list (string * V)) : list (string * V) :=
  (map snd (indexProperties o) ++ filter isNamed o)%list.

(** [{...target, ...source}] continued: every own property of [source],
    in property order, is defined on the target. *)
Definition spread (target source : list (string * V)) : list (string * V) :=
  fold_left (fun t e => obj_set t (fst e) (snd e)) (Object_entries source) target.
End Properties.

(** ** A log and error monad *)

Definition M (A : Type) : Type := list event -> list event * outcome A.

Definition ret {A : Type} (a : A) : M A := fun out => (out, inr a).

Definition bind {A B : Type} (m : M A) (f : A -> M B) : M B :=
  fun out =>
    match m out with
    | (out', inr a) => f a out'
    | (out', inl e) => (out', inl e)
    end.

Definition console (e : event) : M unit := fun out => ((out ++ [e])%list, inr tt).

Definition raise {A : Type} (e : abort) : M A := fun out => (out, inl e).

Definition lift {A : Type} (o : outcome A) : M A := fun out => (out, o).

(** [try { m } catch (error) { handler(error) }]: only a thrown error is
    caught, [process.exit] ends the process. *)
Definition try_catch {A : Type} (m : M A) (handler : error -> M A) : M A :=
  fun out =>
    match m out with
    | (out', inl (Throw e)) => handler e out'
    | r => r
    end.

Notation "x <- m ;; k" := (bind m (fun x => k))
  (at level 61, m at next level, right associativity).
Notation "m ;;; k" := (bind m (fun _ => k))
  (at level 61, right associativity).

(** ** Manifest acquisition *)

(** [/github\.com\/([^\/]+)\/([^\/\?]+)/] tried at the start of [s]. *)
Definition matchUrlHere (s : string) : option (string * string) :=
  match Str.dropPrefix "github.com/" s with
  | Some rest =>
      let (owner, r1) := Str.span (fun x => negb (Str.isChar "/" x)) rest in
      match owner, r1 with
      | String _ _, String d r2 =>
          if Str.isChar "/" d then
            let (nm, _) :=
              Str.span (fun x => negb (Str.isChar "/" x || Str.isChar "?" x)) r2 in
            match nm with
            | String _ _ => Some (owner, nm)
            | EmptyString => None
            end
          else None
      | _, _ => None
      end
  | None => None
  end.

(** The first pattern, searched from left to right. *)
Fixpoint matchUrl (s : string) : option (string * string) :=
  match matchUrlHere s with
  | Some m => Some m
  | None =>
      match s with
      | EmptyString => None
      | String _ s' => matchUrl s'
      end
  end.

(** The second pattern, [/^([^\/]+)\/([^\/]+)$/]: the whole string. *)
Definition matchShorthand (s : string) : option (string * string) :=
  let (owner, r1) := Str.span (fun x => negb (Str.isChar "/" x)) s in
  match owner, r1 with
  | String _ _, String d r2 =>
      if Str.isChar "/" d then
        let (nm, r3) := Str.span (fun x => negb (Str.isChar "/" x)) r2 in
        match nm, r3 with
        | String _ _, EmptyString => Some (owner, nm)
        | _, _ => None
        end
      else None
  | _, _ => None
  end.

(** The loop over [patterns]: the first pattern that matches gives
    [owner] and [repo]. *)
Definition ownerAndRepo (url : string) : option (string * string) :=
  match matchUrl url with
  | Some (o, r) => Some (o, Str.stripDotGit r)
  | None =>
      match matchShorthand url with
      | Some (o, r) => Some (o, Str.stripDotGit r)
      | None => None
      end
  end.

(** [fetchPackageJsonFromGitHub]. *)
Definition fetchPackageJsonFromGitHub (w : World) (url : string) : M parsed :=
  match ownerAndRepo url with
  | Some (owner, repo) =>
      if String.eqb owner EmptyString || String.eqb repo EmptyString then raise (Throw InvalidGitHubUrl)
      else
        console (LogFetching owner repo) ;;;
        match gh_api_contents w owner repo with
        | Some p => ret p
        | None =>
            match curl_raw w owner repo with
            | Some p => ret p
            | None => raise (Throw FailedToFetch)
            end
        end
  | None => raise (Throw InvalidGitHubUrl)
  end.

(** [getPackageJson]. *)
Definition getPackageJson (w : World) (source : string) : M parsed :=
  try_catch
    (if Str.includes "github.com" source || Str.includes "/" source then
       fetchPackageJsonFromGitHub w source
     else
       match read_local w source with
       | Some p => ret p
       | None => raise (Throw ReadFailed)
       end)
    (fun e => console (LogErrorReading e) ;;; raise (Exit 1)).

(** ** The batch auditor *)

Record Report : Type := mkReport {
  approved : list Result;
  needsReview : list Result;
  rejected : list Result
}.

(** The [switch] on [result.status]; it has no [default] case. *)
Definition dispatch (results : Report) (result : Result) : M Report :=
  match status result with
  | StatusApproved =>
      console (LogMark StatusApproved) ;;;
      ret {| approved := (approved results ++ [result])%list;
             needsReview := needsReview results;
             rejected := rejected results |}
  | StatusNeedsReview =>
      console (LogMark StatusNeedsReview) ;;;
      ret {| approved := approved results;
             needsReview := (needsReview results ++ [result])%list;
             rejected := rejected results |}
  | StatusRejected =>
      console (LogMark StatusRejected) ;;;
      ret {| approved := approved results;
             needsReview := needsReview results;
             rejected := (rejected results ++ [result])%list |}
  | StatusUnknown => ret results
  end.

(** The [for ... of Object.entries(allDependencies)] loop. *)
Fixpoint checkEach (w : World) (entries : list (string * json_value))
    (results : Report) : M Report :=
  match entries with
  | [] => ret results
  | (name, version) :: rest =>
      console (LogChecking name) ;;;
      result <- lift (checkPackageCompliance w name version) ;;
      results' <- dispatch results result ;;
      checkEach w rest results'
  end.

(** [{...packageJson.dependencies, ...packageJson.devDependencies}]. *)
Definition allDependencies (p : PackageJson) : jsobject :=
  spread (spread [] (dependencies p)) (devDependencies p).

(** [verifyDependencies] up to the end of the loop: the report.  The
    [Project:] line, which prints the name and the version of the manifest,
    is not modelled. *)
Definition auditDependencies (w : World) (source : string) : M Report :=
  packageJson <- getPackageJson w source ;;
  match packageJson with
  | ParsedNull => raise (Throw NullManifest)
  | ParsedObject p =>
      checkEach w (Object_entries (allDependencies p))
        {| approved := []; needsReview := []; rejected := [] |}
  end.

(** The end of [verifyDependencies]: the message and the exit. *)
Definition conclude (results : Report) : M unit :=
  if (0 <? length (rejected results))%nat then
    console (LogErrorFound (length (rejected results))) ;;;
    raise (Exit 1)
  else if (0 <? length (needsReview results))%nat then
    console (LogWarning (length (needsReview results)))
  else
    console LogSuccess.

(** [verifyDependencies]. *)
Definition verifyDependencies (w : World) (source : string) : M unit :=
  results <- auditDependencies w source ;;
  conclude results.

(** The exit status of the process for a run of [verifyDependencies]
    started with an empty console: the [catch] of the last lines reports a
    thrown error and exits with 1; a run that returns ends with 0. *)
Definition run (w : World) (source : string) : list event * Z :=
  match verifyDependencies w source [] with
  | (out, inr _) => (out, 0)
  | (out, inl (Exit code)) => (out, code)
  | (out, inl (Throw e)) => ((out ++ [LogError e])%list, 1)
  end.

(** The script from its command line: no argument is the current
    directory, [--help] and [-h] print the usage and exit with 0. *)
Definition main (w : World) (args : list string) : list event * Z :=
  match args with
  | [] => run w "."
  | a :: _ =>
      if String.eqb a "--help" || String.eqb a "-h" then ([LogUsage], 0)
      else run w a
  end.

(** ** Notions used to state the properties *)

(** [s.split('/')]: the slash-separated segments of a string. *)
Fixpoint splitSlash (s : string) : list string :=
  match s with
  | EmptyString => [EmptyString]
  | String c s' =>
      if Str.isChar "/" c then EmptyString :: splitSlash s'
      else
        match splitSlash s' with
        | x :: xs => String c x :: xs
        | [] => [String c EmptyString]
        end
  end.

(** The same world with another file system. *)
Definition with_read_local (w : World) (fs : string -> option parsed) : World :=
  {| npm_view := npm_view w;
     gh_api_repos := gh_api_repos w;
     clock := clock w;
     gh_api_contents := gh_api_contents w;
     curl_raw := curl_raw w;
     read_local := fs |}.

Definition status_eqb (a b : Status) : bool :=
  match a, b with
  | StatusUnknown, StatusUnknown
  | StatusApproved, StatusApproved
  | StatusNeedsReview, StatusNeedsReview
  | StatusRejected, StatusRejected => true
  | _, _ => false
  end.

Definition has_status (s : Status) (r : Result) : bool := status_eqb (status r) s.

(** The results found in the three buckets of a report. *)
Definition bucketed (results : Report) : list Result :=
  (approved results ++ needsReview results ++ rejected results)%list.

(** The specification that [getPackageLicense] and [getPackageRepo] hand to
    [npm view] for a dependency: [cleanSpec], for the [packageSpec] built by
    [checkPackageCompliance]. *)
Definition lookupSpec (packageName v : string) : string :=
  Str.replaceDecorator (packageName ++ "@" ++ Str.replaceDecorator v).

(** The number of slashes of a string. *)
Fixpoint slashes (s : string) : nat :=
  match s with
  | EmptyString => O
  | String c s' => ((if Str.isChar "/" c then 1 else 0) + slashes s')%nat
  end.

(** Every character of a string is in a class. *)
Fixpoint allChars (p : ascii -> bool) (s : string) : bool :=
  match s with
  | EmptyString => true
  | String c s' => p c && allChars p s'
  end.

(** The characters of [[\w.-]] and the slash. *)
Definition repoChar (c : ascii) : bool :=
  Str.isWord c || Str.isChar "." c || Str.isChar "-" c || Str.isChar "/" c.

Definition isStringVersion (e : string * json_value) : bool :=
  match snd e with
  | JString _ => true
  | JNotString => false
  end.

(** A number that is at least another one: for a counter that is a
    number, a number not smaller. *)
Definition num_le (a b : jsnum) : Prop :=
  match a with
  | Num x => exists y, b = Num y /\ x <= y
  | NaN | Undefined => True
  end.

(** The two console lines of one turn of the loop. *)
Definition turnLines (r : Result) : list event :=
  [LogChecking (name r); LogMark (status r)].

(** The [GitHub:] line of the needs-review listing: printed [if (dep.repo)],
    for [dep.githubStats?.actualRepo || dep.repo]; [None] when no line is
    printed. *)
Definition reviewLink (dep : Result) : option string :=
  match repo dep with
  | Some r =>
      if String.eqb r EmptyString then None
      else
        let actual :=
          match githubStats dep with
          | Some st => if String.eqb (actualRepo st) EmptyString then r else actualRepo st
          | None => r
          end in
        Some ("https://github.com/" ++ actual)
  | None => None
  end.

(** ** Sample worlds and manifests *)

Module Examples.

(** A registry where every package is under [license] and lives in the
    GitHub repository [a/b]; GitHub answers [data] for [a/b] and nothing
    else resolves.  The clock stands 24 months of 30 days after the
    epoch. *)
Definition registry (license : option string) (data : option RepoData) : World :=
  {| npm_view := fun _ field =>
       if String.eqb field "license" then license
       else Some "git+https://github.com/a/b.git";
     gh_api_repos := fun r => if String.eqb r "a/b" then data else None;
     clock := fun _ => 24 * (1000 * 60 * 60 * 24 * 30);
     gh_api_contents := fun _ _ => None;
     curl_raw := fun _ _ => None;
     read_local := fun _ => None |}.

Definition popular : RepoData :=
  {| stargazers_count := Num 50; forks_count := Num 5; created_at := Some 0 |}.


(** A world whose current directory holds the given manifest. *)
Definition project (license : option string) (data : option RepoData)
    (p : parsed) : World :=
  {| npm_view := npm_view (registry license data);
     gh_api_repos := gh_api_repos (registry license data);
     clock := clock (registry license data);
     gh_api_contents := fun _ _ => None;
     curl_raw := fun _ _ => None;
     read_local := fun s => if String.eqb s "." then Some p else None |}.

Definition manifest : PackageJson :=
  {| dependencies := [("left-pad", JString "^1.3.0"); ("chalk", JString "~5.0.0")];
     devDependencies := [("left-pad", JString "1.2.0"); ("jest", JString "^29.0.0")] |}.

End Examples.

(** * Properties *)

(** ** The evaluator and the policy *)

Lemma set_verdict_status (r : Result) (s : Status) (why : string) :
  status (set_verdict r s why) = s.
Proof. reflexivity. Qed.

(** The policy only writes the [status] and [reason] fields. *)
Lemma apply_policy_verdict (r : Result) :
  exists s why, apply_policy r = set_verdict r s why.
Proof.
  unfold apply_policy.
  destruct (isAutoApproved (license r)); [eauto|].
  destruct (Set_has APPROVED_LICENSES (license r)); [|eauto].
  destruct (githubStats r) as [g|]; [|eauto].
  destruct (js_ge (age g) 12 && (js_ge (stars g) 10 || js_ge (forks g) 10));
    eauto.
Qed.

Lemma apply_policy_license (r : Result) : license (apply_policy r) = license r.
Proof. destruct (apply_policy_verdict r) as [s [why ->]]. reflexivity. Qed.

Lemma apply_policy_githubStats (r : Result) :
  githubStats (apply_policy r) = githubStats r.
Proof. destruct (apply_policy_verdict r) as [s [why ->]]. reflexivity. Qed.

Lemma apply_policy_name (r : Result) : name (apply_policy r) = name r.
Proof. destruct (apply_policy_verdict r) as [s [why ->]]. reflexivity. Qed.

Lemma apply_policy_version (r : Result) : version (apply_policy r) = version r.
Proof. destruct (apply_policy_verdict r) as [s [why ->]]. reflexivity. Qed.

(** A result returned by [checkPackageCompliance] is the policy applied to
    some record. *)
Lemma checkPackageCompliance_inr (w : World) (n : string) (v : json_value)
    (r : Result) :
  checkPackageCompliance w n v = inr r ->
  exists r0, r = apply_policy r0 /\ name r0 = n.
Proof.
  destruct v as [s|]; simpl; intros H; [|discriminate].
  injection H as <-. eexists; split; reflexivity.
Qed.

(** The two policy sets are disjoint. *)
Lemma conditional_not_auto (l : string) :
  Set_has APPROVED_LICENSES l = true -> isAutoApproved l = false.
Proof.
  unfold Set_has. rewrite existsb_exists.
  intros [x [Hin Heq]]. apply String.eqb_eq in Heq. subst x.
  simpl in Hin.
  repeat (destruct Hin as [<-|Hin]; [reflexivity|]).
  contradiction.
Qed.

Lemma unknown_sentinel_unlisted :
  isAutoApproved "Unknown" = false /\ Set_has APPROVED_LICENSES "Unknown" = false.
Proof. split; reflexivity. Qed.

(** The sentinel is what [getPackageLicense] answers when the lookup fails
    or prints nothing. *)
Lemma getPackageLicense_unknown (w : World) (spec : string) :
  npm_view w (Str.replaceDecorator spec) "license" = None \/
  npm_view w (Str.replaceDecorator spec) "license" = Some EmptyString ->
  getPackageLicense w spec = "Unknown".
Proof.
  unfold getPackageLicense. intros [-> | ->]; reflexivity.
Qed.

Lemma auto_approved_any_record (r0 : Result) :
  isAutoApproved (license r0) = true ->
  status (apply_policy r0) = StatusApproved.
Proof. unfold apply_policy. intros ->. reflexivity. Qed.

(** C1.  For a license of the conditional-approval set and present
    repository statistics [S], the status is ['approved'] exactly when
    [S.age >= 12 && (S.stars >= 10 || S.forks >= 10)]; when that test fails
    the status is ['needs-review'], and it is never ['rejected']. *)
Theorem conditional_license_adoption_gate
    (w : World) (packageName : string) (version : json_value)
    (r : Result) (S : GitHubStats) :
  checkPackageCompliance w packageName version = inr r ->
  Set_has APPROVED_LICENSES (license r) = true ->
  githubStats r = Some S ->
  (status r = StatusApproved <->
     js_ge (age S) 12 = true /\
     (js_ge (stars S) 10 = true \/ js_ge (forks S) 10 = true)) /\
  (~ (js_ge (age S) 12 = true /\
      (js_ge (stars S) 10 = true \/ js_ge (forks S) 10 = true)) ->
   status r = StatusNeedsReview) /\
  status r <> StatusRejected.
Proof.
  intros Hrun Hset Hstats.
  destruct (checkPackageCompliance_inr _ _ _ _ Hrun) as [r0 [-> _]].
  rewrite apply_policy_license in Hset.
  rewrite apply_policy_githubStats in Hstats.
  unfold apply_policy.
  rewrite (conditional_not_auto _ Hset), Hset, Hstats.
  destruct (js_ge (age S) 12); destruct (js_ge (stars S) 10);
    destruct (js_ge (forks S) 10); simpl;
    (split; [split; [intros H; try discriminate H; auto
                    | intros [Ha [Hb|Hb]]; try discriminate; reflexivity]
            | split; [intros Hn; try reflexivity; exfalso; apply Hn; auto
                     | discriminate]]).
Qed.

Lemma conditional_license_adoption_gate_witness :
  exists r S,
    checkPackageCompliance
      (Examples.registry (Some "MIT") (Some Examples.popular))
      "left-pad" (JString "^1.3.0") = inr r /\
    githubStats r = Some S /\
    stars S = Num 50 /\ forks S = Num 5 /\ age S = Num 24 /\
    (status r = StatusApproved <->
       js_ge (age S) 12 = true /\
       (js_ge (stars S) 10 = true \/ js_ge (forks S) 10 = true)) /\
    status r <> StatusRejected.
Proof.
  eexists. eexists.
  split; [reflexivity|].
  split; [reflexivity|].
  split; [reflexivity|]. split; [reflexivity|]. split; [reflexivity|].
  pose proof (conditional_license_adoption_gate
                (Examples.registry (Some "MIT") (Some Examples.popular))
                "left-pad" (JString "^1.3.0") _ _
                eq_refl eq_refl eq_refl) as [H1 [_ H3]].
  split; [exact H1 | exact H3].
Defined.

(** C2.  When the auto-approval test holds for the license, the status is
    ['approved'] whatever the repository statistics of the result are
    (absent, or with any counters and age): the branch is taken before
    the statistics are looked at. *)
Theorem auto_approved_whatever_stats
    (w : World) (packageName : string) (version : json_value) (r : Result) :
  checkPackageCompliance w packageName version = inr r ->
  isAutoApproved (license r) = true ->
  status r = StatusApproved /\
  reason r = "Apache-2.0 license (automatically approved)".
Proof.
  intros Hrun Hauto.
  destruct (checkPackageCompliance_inr _ _ _ _ Hrun) as [r0 [-> _]].
  rewrite apply_policy_license in Hauto.
  unfold apply_policy. rewrite Hauto. split; reflexivity.
Qed.

Lemma auto_approved_whatever_stats_witness :
  exists r,
    checkPackageCompliance
      (Examples.registry (Some "Apache-2.0")
         (Some {| stargazers_count := Num 0; forks_count := Num 0;
                  created_at := Some (24 * (1000 * 60 * 60 * 24 * 30)) |}))
      "left-pad" (JString "^1.3.0") = inr r /\
    (exists S, githubStats r = Some S /\
               stars S = Num 0 /\ forks S = Num 0 /\ age S = Num 0) /\
    status r = StatusApproved.
Proof.
  eexists. split; [reflexivity|].
  split; [eexists; repeat split; reflexivity|].
  exact (proj1 (auto_approved_whatever_stats
                  (Examples.registry (Some "Apache-2.0")
                     (Some {| stargazers_count := Num 0; forks_count := Num 0;
                              created_at := Some (24 * (1000 * 60 * 60 * 24 * 30)) |}))
                  "left-pad" (JString "^1.3.0") _ eq_refl eq_refl)).
Defined.

(** C3.  A license that passes neither the auto-approval test nor the
    membership test of the conditional set, and in particular the
    sentinel ['Unknown'] that stands for an undetermined license, gives the
    status ['rejected'] whatever the repository statistics are. *)
Theorem unlisted_license_rejected
    (w : World) (packageName : string) (version : json_value) (r : Result) :
  checkPackageCompliance w packageName version = inr r ->
  (isAutoApproved (license r) = false /\
   Set_has APPROVED_LICENSES (license r) = false) \/
  license r = "Unknown" ->
  status r = StatusRejected /\
  reason r = license r ++ " license is not on the LFDT approved list".
Proof.
  intros Hrun Hlic.
  assert (Hboth : isAutoApproved (license r) = false /\
                  Set_has APPROVED_LICENSES (license r) = false).
  { destruct Hlic as [H | ->]; [exact H | exact unknown_sentinel_unlisted]. }
  destruct Hboth as [Hauto Hset].
  destruct (checkPackageCompliance_inr _ _ _ _ Hrun) as [r0 [-> _]].
  rewrite apply_policy_license in Hauto, Hset |- *.
  unfold apply_policy. rewrite Hauto, Hset. split; reflexivity.
Qed.

(** The registry does not know the package: the license is the sentinel,
    and popular statistics do not help. *)
Lemma unlisted_license_rejected_witness :
  exists r,
    checkPackageCompliance (Examples.registry None (Some Examples.popular))
      "left-pad" (JString "^1.3.0") = inr r /\
    license r = "Unknown" /\
    (exists S, githubStats r = Some S /\ stars S = Num 50 /\ age S = Num 24) /\
    status r = StatusRejected.
Proof.
  eexists. split; [reflexivity|].
  split; [reflexivity|].
  split; [eexists; repeat split; reflexivity|].
  exact (proj1 (unlisted_license_rejected
                  (Examples.registry None (Some Examples.popular))
                  "left-pad" (JString "^1.3.0") _ eq_refl
                  (or_intror eq_refl))).
Defined.

(** C4.  For a license of the conditional-approval set, when the
    repository statistics are absent ([null]) the status is
    ['needs-review'] (so neither ['approved'] nor ['rejected']) and the reason
    says that substantial use could not be verified. *)
Theorem conditional_license_without_stats
    (w : World) (packageName : string) (version : json_value) (r : Result) :
  checkPackageCompliance w packageName version = inr r ->
  Set_has APPROVED_LICENSES (license r) = true ->
  githubStats r = None ->
  status r = StatusNeedsReview /\
  reason r = license r ++ " license (approved) but unable to verify substantial use".
Proof.
  intros Hrun Hset Hstats.
  destruct (checkPackageCompliance_inr _ _ _ _ Hrun) as [r0 [-> _]].
  rewrite apply_policy_license in Hset |- *.
  rewrite apply_policy_githubStats in Hstats.
  unfold apply_policy.
  rewrite (conditional_not_auto _ Hset), Hset, Hstats. split; reflexivity.
Qed.

Lemma conditional_license_without_stats_witness :
  exists r,
    checkPackageCompliance (Examples.registry (Some "MIT") None)
      "left-pad" (JString "^1.3.0") = inr r /\
    githubStats r = None /\
    status r = StatusNeedsReview /\
    reason r = "MIT license (approved) but unable to verify substantial use".
Proof.
  eexists. split; [reflexivity|].
  split; [reflexivity|].
  exact (conditional_license_without_stats
           (Examples.registry (Some "MIT") None)
           "left-pad" (JString "^1.3.0") _ eq_refl eq_refl eq_refl).
Defined.

(** C7, as the code has it.  The auto-approval test holds for exactly two
    license strings, ['Apache-2.0'] and ['Apache 2.0']. *)
Theorem isAutoApproved_two_identifiers :
  (forall l : string,
     isAutoApproved l = true <-> l = "Apache-2.0" \/ l = "Apache 2.0") /\
  "Apache-2.0" <> "Apache 2.0".
Proof.
  split; [|discriminate].
  intros l. unfold isAutoApproved.
  rewrite orb_true_iff, !String.eqb_eq. reflexivity.
Qed.

(** C7, as stated, fails: no single identifier is the only auto-approved
    one, since ['Apache 2.0'] (with a space) is auto-approved as well as
    ['Apache-2.0']. *)
Lemma isAutoApproved_not_single :
  ~ (exists d : string, forall l : string, isAutoApproved l = true <-> l = d).
Proof.
  intros [d H].
  pose proof (proj1 (H "Apache-2.0") eq_refl) as H1.
  pose proof (proj1 (H "Apache 2.0") eq_refl) as H2.
  rewrite <- H2 in H1. discriminate H1.
Qed.




(** ** Version cleaning *)

(** One call of [replace(/[\^~]/, '')] removes one decorator, the first,
    and no more. *)
Lemma replaceDecorator_count (s : string) :
  Str.countDecorators (Str.replaceDecorator s) = pred (Str.countDecorators s).
Proof.
  induction s as [|c s IH]; [reflexivity|].
  cbn [Str.replaceDecorator Str.countDecorators].
  destruct (Str.isChar "^" c || Str.isChar "~" c) eqn:E.
  - reflexivity.
  - cbn [Str.countDecorators]. rewrite E. exact IH.
Qed.

Lemma replaceDecorator_clean (s : string) :
  Str.countDecorators s = O -> Str.replaceDecorator s = s.
Proof.
  induction s as [|c s IH]; [reflexivity|].
  cbn [Str.replaceDecorator Str.countDecorators].
  destruct (Str.isChar "^" c || Str.isChar "~" c) eqn:E.
  - discriminate.
  - intros H. rewrite (IH H). reflexivity.
Qed.

(** The specification looked up in the registry for the license of a
    dependency: the package specification cleaned once more. *)
Lemma license_lookup (w : World) (packageName v : string) (r : Result) :
  checkPackageCompliance w packageName (JString v) = inr r ->
  version r = Str.replaceDecorator v /\
  license r =
    match npm_view w
            (Str.replaceDecorator (packageName ++ "@" ++ Str.replaceDecorator v))
            "license" with
    | Some l => if String.eqb l EmptyString then "Unknown" else l
    | None => "Unknown"
    end.
Proof.
  unfold checkPackageCompliance. intros H. injection H as <-.
  rewrite apply_policy_version, apply_policy_license.
  split; reflexivity.
Qed.

(** With two decorators, the version kept in the result still has one; the
    second cleaning, in [getPackageLicense], removes it from the
    specification that is looked up. *)
Lemma two_decorators (w : World) :
  exists r,
    checkPackageCompliance w "left-pad" (JString "^~1.0.0") = inr r /\
    version r = "~1.0.0" /\
    license r =
      match npm_view w "left-pad@1.0.0" "license" with
      | Some l => if String.eqb l EmptyString then "Unknown" else l
      | None => "Unknown"
      end.
Proof.
  eexists. split; [reflexivity|].
  exact (license_lookup w "left-pad" "^~1.0.0" _ eq_refl).
Qed.

(** C8, the code at a version range with three decorators: the version
    kept in the result has two of them left, and the specification looked
    up in the registry has one left. *)
Theorem three_decorators_survive (w : World) :
  exists r,
    checkPackageCompliance w "left-pad"
      (JString "^1.0.0 || ^2.0.0 || ^3.0.0") = inr r /\
    version r = "1.0.0 || ^2.0.0 || ^3.0.0" /\
    license r =
      match npm_view w "left-pad@1.0.0 || 2.0.0 || ^3.0.0" "license" with
      | Some l => if String.eqb l EmptyString then "Unknown" else l
      | None => "Unknown"
      end /\
    Str.countDecorators "left-pad@1.0.0 || 2.0.0 || ^3.0.0" = 1%nat.
Proof.
  eexists. split; [reflexivity|].
  destruct (license_lookup w "left-pad" "^1.0.0 || ^2.0.0 || ^3.0.0" _ eq_refl)
    as [Hv Hl].
  split; [exact Hv|]. split; [exact Hl|]. reflexivity.
Qed.

(** ** Objects *)

Section PropertyFacts.
Context {V : Type}.
Implicit Types (o : list (string * V)) (k : string) (v : V).

Lemma obj_set_keys o k v (x : string) :
  In x (map fst (obj_set o k v)) <-> x = k \/ In x (map fst o).
Proof.
  induction o as [|[k' v'] o IH]; simpl.
  - intuition.
  - destruct (String.eqb_spec k k') as [->|Hne]; simpl.
    + intuition.
    + rewrite IH. intuition.
Qed.

Lemma obj_set_NoDup o k v :
  NoDup (map fst o) -> NoDup (map fst (obj_set o k v)).
Proof.
  induction o as [|[k' v'] o IH]; simpl; intros Hnd.
  - constructor; [intros []|constructor].
  - inversion Hnd as [|? ? Hnotin Hnd']; subst.
    destruct (String.eqb_spec k k') as [->|Hne]; simpl.
    + constructor; assumption.
    + constructor; [|auto].
      rewrite obj_set_keys. intros [Heq|Hin]; [congruence|contradiction].
Qed.

Lemma insertByIndex_perm (n : N) (e : string * V) l :
  Permutation (insertByIndex n e l) ((n, e) :: l).
Proof.
  induction l as [|[m e'] l IH]; simpl.
  - apply Permutation_refl.
  - destruct (n <=? m)%N.
    + apply Permutation_refl.
    + eapply perm_trans; [apply perm_skip, IH | apply perm_swap].
Qed.

(** [Object.entries] lists every own property once. *)
Lemma Object_entries_perm o : Permutation (Object_entries o) o.
Proof.
  unfold Object_entries.
  induction o as [|[k v] o IH]; simpl.
  - apply Permutation_refl.
  - unfold isNamed at 1. simpl fst.
    destruct (arrayIndex k) as [n|].
    + eapply perm_trans.
      * apply Permutation_app_tail, Permutation_map, insertByIndex_perm.
      * simpl. apply perm_skip, IH.
    + apply Permutation_sym.
      eapply perm_trans; [apply perm_skip, Permutation_sym, IH|].
      apply Permutation_middle.
Qed.

Lemma Object_entries_keys o (x : string) :
  In x (map fst (Object_entries o)) <-> In x (map fst o).
Proof.
  pose proof (Permutation_map fst (Object_entries_perm o)) as H.
  split; apply Permutation_in; [exact H | apply Permutation_sym, H].
Qed.

Lemma Object_entries_NoDup o :
  NoDup (map fst o) -> NoDup (map fst (Object_entries o)).
Proof.
  apply Permutation_NoDup, Permutation_sym, Permutation_map,
    Object_entries_perm.
Qed.

Lemma fold_set_keys (l : list (string * V)) : forall o (x : string),
  In x (map fst (fold_left (fun t e => obj_set t (fst e) (snd e)) l o)) <->
  In x (map fst o) \/ In x (map fst l).
Proof.
  induction l as [|[k v] l IH]; simpl; intros o x.
  - intuition.
  - rewrite IH, obj_set_keys. intuition.
Qed.

Lemma fold_set_NoDup (l : list (string * V)) : forall o,
  NoDup (map fst o) ->
  NoDup (map fst (fold_left (fun t e => obj_set t (fst e) (snd e)) l o)).
Proof.
  induction l as [|[k v] l IH]; simpl; intros o Hnd.
  - exact Hnd.
  - apply IH, obj_set_NoDup, Hnd.
Qed.

(** The keys of [{...target, ...source}] are those of both objects. *)
Lemma spread_keys (target source : list (string * V)) (x : string) :
  In x (map fst (spread target source)) <->
  In x (map fst target) \/ In x (map fst source).
Proof.
  unfold spread. rewrite fold_set_keys, Object_entries_keys. reflexivity.
Qed.

Lemma spread_NoDup (target source : list (string * V)) :
  NoDup (map fst target) -> NoDup (map fst (spread target source)).
Proof. apply fold_set_NoDup. Qed.
End PropertyFacts.

(** The merged dependency object has each name once, and its names are
    those of the two dependency objects of the manifest. *)
Lemma allDependencies_NoDup (p : PackageJson) :
  NoDup (map fst (allDependencies p)).
Proof.
  unfold allDependencies. apply spread_NoDup, spread_NoDup. constructor.
Qed.

Lemma allDependencies_keys (p : PackageJson) (x : string) :
  In x (map fst (allDependencies p)) <->
  In x (map fst (dependencies p)) \/ In x (map fst (devDependencies p)).
Proof.
  unfold allDependencies. rewrite !spread_keys. simpl. intuition.
Qed.

(** On a name declared in both objects the development entry wins. *)
Lemma obj_set_here {V : Type} (o : list (string * V)) (k : string) (v : V) :
  In (k, v) (obj_set o k v).
Proof.
  induction o as [|[k' v'] o IH]; simpl.
  - left; reflexivity.
  - destruct (String.eqb k k'); simpl; auto.
Qed.

Lemma obj_set_other {V : Type} (o : list (string * V)) (k k' : string) (v v' : V) :
  In (k', v') o -> k' <> k -> In (k', v') (obj_set o k v).
Proof.
  induction o as [|[k0 v0] o IH]; simpl; [tauto|].
  intros [Heq|Hin] Hne.
  - injection Heq as -> ->.
    destruct (String.eqb_spec k k') as [->|_]; [congruence|left; reflexivity].
  - destruct (String.eqb k k0); simpl; auto.
Qed.

Lemma fold_set_keeps {V : Type} (l : list (string * V)) :
  forall (o : list (string * V)) (k : string) (v : V),
    In (k, v) o -> ~ In k (map fst l) ->
    In (k, v) (fold_left (fun t e => obj_set t (fst e) (snd e)) l o).
Proof.
  induction l as [|[k0 v0] l IH]; simpl; intros o k v Hin Hk; [exact Hin|].
  apply IH; [|tauto].
  apply obj_set_other; [exact Hin|]. intros ->. tauto.
Qed.

Lemma fold_set_last {V : Type} (l : list (string * V)) :
  forall (o : list (string * V)) (k : string) (v : V),
    NoDup (map fst l) -> In (k, v) l ->
    In (k, v) (fold_left (fun t e => obj_set t (fst e) (snd e)) l o).
Proof.
  induction l as [|[k0 v0] l IH]; simpl; intros o k v Hnd Hin; [contradiction|].
  inversion Hnd as [|? ? Hnotin Hnd']; subst.
  destruct Hin as [Heq|Hin].
  - injection Heq as -> ->. apply fold_set_keeps; [apply obj_set_here|exact Hnotin].
  - apply IH; assumption.
Qed.

Lemma dev_entry_wins (p : PackageJson) (k : string) (v : json_value) :
  NoDup (map fst (devDependencies p)) ->
  In (k, v) (devDependencies p) ->
  In (k, v) (allDependencies p).
Proof.
  intros Hnd Hin. unfold allDependencies, spread at 1.
  apply fold_set_last.
  - apply Object_entries_NoDup, Hnd.
  - eapply Permutation_in; [apply Permutation_sym, Object_entries_perm|exact Hin].
Qed.

(** ** The batch loop *)

(** The status of a returned result is never the initial ['unknown']. *)
Lemma apply_policy_status (r : Result) :
  status (apply_policy r) <> StatusUnknown.
Proof.
  unfold apply_policy.
  destruct (isAutoApproved (license r)); [discriminate|].
  destruct (Set_has APPROVED_LICENSES (license r)); [|discriminate].
  destruct (githubStats r) as [g|]; [|discriminate].
  destruct (js_ge (age g) 12 && (js_ge (stars g) 10 || js_ge (forks g) 10));
    discriminate.
Qed.

Lemma checkPackageCompliance_status (w : World) (n : string) (v : json_value)
    (r : Result) :
  checkPackageCompliance w n v = inr r -> status r <> StatusUnknown.
Proof.
  intros H. destruct (checkPackageCompliance_inr _ _ _ _ H) as [r0 [-> _]].
  apply apply_policy_status.
Qed.

Lemma checkPackageCompliance_name (w : World) (n : string) (v : json_value)
    (r : Result) :
  checkPackageCompliance w n v = inr r -> name r = n.
Proof.
  intros H. destruct (checkPackageCompliance_inr _ _ _ _ H) as [r0 [-> Hn]].
  rewrite apply_policy_name. exact Hn.
Qed.

(** What [dispatch] does to the buckets. *)
Lemma dispatch_buckets (acc : Report) (r : Result) (out : list event) :
  exists out' acc',
    dispatch acc r out = (out', inr acc') /\
    approved acc' = (approved acc ++ filter (has_status StatusApproved) [r])%list /\
    needsReview acc' = (needsReview acc ++ filter (has_status StatusNeedsReview) [r])%list /\
    rejected acc' = (rejected acc ++ filter (has_status StatusRejected) [r])%list.
Proof.
  unfold dispatch.
  destruct (status r) eqn:E; simpl; unfold bind, console, ret; simpl;
    do 2 eexists; (split; [reflexivity|]); simpl;
    unfold has_status; rewrite E; simpl; rewrite ?app_nil_r; auto.
Qed.

(** A loop that reaches its end has evaluated every entry, in order, and
    has put each result in the bucket of its status. *)
Lemma checkEach_inr (w : World) (entries : list (string * json_value)) :
  forall (acc : Report) (out out' : list event) (results : Report),
    checkEach w entries acc out = (out', inr results) ->
    exists rs : list Result,
      Forall2 (fun e r => checkPackageCompliance w (fst e) (snd e) = inr r)
              entries rs /\
      approved results = (approved acc ++ filter (has_status StatusApproved) rs)%list /\
      needsReview results = (needsReview acc ++ filter (has_status StatusNeedsReview) rs)%list /\
      rejected results = (rejected acc ++ filter (has_status StatusRejected) rs)%list.
Proof.
  induction entries as [|[n v] rest IH]; intros acc out out' results H.
  - unfold checkEach, ret in H. injection H as _ <-.
    exists []. rewrite !app_nil_r. repeat split; auto.
  - cbn [checkEach] in H. unfold bind at 1 2, console, lift in H.
    destruct (checkPackageCompliance w n v) as [e|r] eqn:Hr.
    + discriminate H.
    + unfold bind in H.
      destruct (dispatch_buckets acc r (out ++ [LogChecking n])%list)
        as [out1 [acc1 [Hd [Ha [Hn Hj]]]]].
      rewrite Hd in H.
      destruct (IH _ _ _ _ H) as [rs [Hall [Ha' [Hn' Hj']]]].
      exists (r :: rs). split; [constructor; [exact Hr | exact Hall]|].
      change (r :: rs) with ([r] ++ rs)%list.
      rewrite !filter_app, Ha', Hn', Hj', Ha, Hn, Hj, <- !app_assoc.
      repeat split; reflexivity.
Qed.

(** Filtering by the three verdicts loses nothing when no status is
    ['unknown']. *)
Lemma three_filters_perm (rs : list Result) :
  Forall (fun r => status r <> StatusUnknown) rs ->
  Permutation
    (filter (has_status StatusApproved) rs
     ++ filter (has_status StatusNeedsReview) rs
     ++ filter (has_status StatusRejected) rs)%list rs.
Proof.
  induction 1 as [|r rs Hr _ IH]; [apply Permutation_refl|].
  cbn [filter].
  assert (Hs : forall s, has_status s r = status_eqb (status r) s) by reflexivity.
  rewrite !Hs.
  destruct (status r); cbn [status_eqb]; try congruence.
  - apply perm_skip, IH.
  - eapply perm_trans; [apply Permutation_sym, Permutation_middle|].
    apply perm_skip, IH.
  - rewrite app_assoc.
    eapply perm_trans; [apply Permutation_sym, Permutation_middle|].
    rewrite <- app_assoc. apply perm_skip, IH.
Qed.

Lemma filter_has_status (s : Status) (rs : list Result) :
  Forall (fun r => status r = s) (filter (has_status s) rs).
Proof.
  apply Forall_forall. intros r Hin. apply filter_In in Hin as [_ H].
  unfold has_status in H. destruct (status r), s; simpl in H; congruence.
Qed.

Lemma Forall2_names (w : World) (entries : list (string * json_value))
    (rs : list Result) :
  Forall2 (fun e r => checkPackageCompliance w (fst e) (snd e) = inr r) entries rs ->
  map name rs = map fst entries /\
  Forall (fun r => status r <> StatusUnknown) rs.
Proof.
  induction 1 as [|e r entries rs He _ [IHn IHs]]; [split; constructor|].
  simpl. rewrite IHn, (checkPackageCompliance_name _ _ _ _ He).
  split; [reflexivity|].
  constructor; [eapply checkPackageCompliance_status; eassumption | exact IHs].
Qed.

Lemma auditDependencies_object (w : World) (source : string) (p : PackageJson)
    (out0 : list event) :
  getPackageJson w source [] = (out0, inr (ParsedObject p)) ->
  auditDependencies w source [] =
  checkEach w (Object_entries (allDependencies p))
    {| approved := []; needsReview := []; rejected := [] |} out0.
Proof. intros H. unfold auditDependencies, bind. rewrite H. reflexivity. Qed.

(** C9.  When the batch loop finishes, the names found in the three
    buckets together are without duplicates (so each evaluated dependency
    is in exactly one bucket, once), they are exactly the names of the
    merged dependency object, that is the names of [dependencies] and of
    [devDependencies]; each bucket holds results of its own status; and
    the buckets together hold every result computed by the loop, one per
    entry of the merged object: the dispatch drops none. *)
Theorem every_dependency_in_one_bucket
    (w : World) (source : string) (p : PackageJson)
    (out0 out : list event) (results : Report) :
  getPackageJson w source [] = (out0, inr (ParsedObject p)) ->
  auditDependencies w source [] = (out, inr results) ->
  NoDup (map name (bucketed results)) /\
  (forall n : string,
     In n (map name (bucketed results)) <->
     In n (map fst (dependencies p)) \/ In n (map fst (devDependencies p))) /\
  Permutation (map name (bucketed results)) (map fst (allDependencies p)) /\
  Forall (fun r => status r = StatusApproved) (approved results) /\
  Forall (fun r => status r = StatusNeedsReview) (needsReview results) /\
  Forall (fun r => status r = StatusRejected) (rejected results) /\
  exists rs : list Result,
    Forall2 (fun e r => checkPackageCompliance w (fst e) (snd e) = inr r)
            (Object_entries (allDependencies p)) rs /\
    Permutation (bucketed results) rs.
Proof.
  intros Hpkg Haudit.
  rewrite (auditDependencies_object _ _ _ _ Hpkg) in Haudit.
  destruct (checkEach_inr _ _ _ _ _ _ Haudit) as [rs [Hall [Ha [Hn Hj]]]].
  simpl in Ha, Hn, Hj.
  destruct (Forall2_names _ _ _ Hall) as [Hnames Hknown].
  assert (Hperm : Permutation (bucketed results) rs).
  { unfold bucketed. rewrite Ha, Hn, Hj. apply three_filters_perm, Hknown. }
  assert (Hkeys : Permutation (map name (bucketed results))
                              (map fst (allDependencies p))).
  { eapply perm_trans; [apply Permutation_map, Hperm|].
    rewrite Hnames. apply Permutation_map, Object_entries_perm. }
  split.
  { eapply Permutation_NoDup; [apply Permutation_sym, Hkeys|].
    apply allDependencies_NoDup. }
  split.
  { intros n. rewrite <- allDependencies_keys.
    split; apply Permutation_in; [exact Hkeys | apply Permutation_sym, Hkeys]. }
  split; [exact Hkeys|].
  split; [rewrite Ha; apply filter_has_status|].
  split; [rewrite Hn; apply filter_has_status|].
  split; [rewrite Hj; apply filter_has_status|].
  exists rs. split; assumption.
Qed.

(** A manifest that declares [left-pad] twice: three dependencies are
    audited, each once. *)
Lemma every_dependency_in_one_bucket_witness :
  exists out results,
    auditDependencies
      (Examples.project (Some "MIT") None (ParsedObject Examples.manifest))
      "." [] = (out, inr results) /\
    map name (needsReview results) = ["left-pad"; "chalk"; "jest"] /\
    NoDup (map name (bucketed results)) /\
    Permutation (map name (bucketed results))
                (map fst (allDependencies Examples.manifest)).
Proof.
  eexists. eexists.
  split; [reflexivity|].
  split; [reflexivity|].
  pose proof (every_dependency_in_one_bucket
                (Examples.project (Some "MIT") None (ParsedObject Examples.manifest))
                "." Examples.manifest [] _ _ eq_refl eq_refl)
    as [H1 [_ [H3 _]]].
  split; [exact H1 | exact H3].
Defined.

(** ** Manifest acquisition and the exit status *)

(** The fetcher never ends the process itself: it returns or throws. *)
Lemma fetchPackageJsonFromGitHub_no_exit (w : World) (url : string)
    (out out' : list event) (code : Z) :
  fetchPackageJsonFromGitHub w url out <> (out', inl (Exit code)).
Proof.
  unfold fetchPackageJsonFromGitHub.
  destruct (ownerAndRepo url) as [[owner repo]|]; [|discriminate].
  destruct (String.eqb owner EmptyString || String.eqb repo EmptyString); [discriminate|].
  unfold bind, console.
  destruct (gh_api_contents w owner repo); [discriminate|].
  destruct (curl_raw w owner repo); discriminate.
Qed.

(** Every failure of [getPackageJson] is [process.exit(1)], after the
    error has been reported. *)
Lemma getPackageJson_abort (w : World) (source : string)
    (out out' : list event) (a : abort) :
  getPackageJson w source out = (out', inl a) ->
  a = Exit 1 /\ exists out1 e, out' = (out1 ++ [LogErrorReading e])%list.
Proof.
  unfold getPackageJson, try_catch.
  set (inner := if Str.includes "github.com" source || Str.includes "/" source
                then fetchPackageJsonFromGitHub w source
                else match read_local w source with
                     | Some p => ret p
                     | None => raise (Throw ReadFailed)
                     end).
  destruct (inner out) as [out1 [[e|code]|p]] eqn:Hinner.
  - unfold bind, console, raise. intros H. injection H as <- <-.
    split; [reflexivity|]. eauto.
  - exfalso. unfold inner in Hinner.
    destruct (Str.includes "github.com" source || Str.includes "/" source).
    + exact (fetchPackageJsonFromGitHub_no_exit _ _ _ _ _ Hinner).
    + destruct (read_local w source); discriminate Hinner.
  - discriminate.
Qed.

Lemma run_manifest_failure (w : World) (source : string)
    (out : list event) (a : abort) :
  getPackageJson w source [] = (out, inl a) ->
  run w source = (out, 1).
Proof.
  intros H. destruct (getPackageJson_abort _ _ _ _ _ H) as [-> _].
  unfold run, verifyDependencies, auditDependencies, bind.
  rewrite H. reflexivity.
Qed.

Lemma run_finalized (w : World) (source : string)
    (out : list event) (results : Report) :
  auditDependencies w source [] = (out, inr results) ->
  run w source =
  match conclude results out with
  | (out', inr _) => (out', 0)
  | (out', inl (Exit code)) => (out', code)
  | (out', inl (Throw e)) => ((out' ++ [LogError e])%list, 1)
  end.
Proof.
  intros H. unfold run, verifyDependencies, bind. rewrite H. reflexivity.
Qed.

(** C5.  A run whose manifest cannot be acquired ends with exit status 1.
    A run that finalizes its report ends with exit status 1, after the
    error line, when the rejected bucket is not empty (whatever the
    needs-review bucket holds); otherwise with exit status 0 after the
    warning line when the needs-review bucket is not empty; otherwise
    with exit status 0 after the success line. *)
Theorem run_exit_status (w : World) (source : string) :
  (forall (out : list event) (a : abort),
     getPackageJson w source [] = (out, inl a) -> run w source = (out, 1)) /\
  (forall (out : list event) (results : Report),
     auditDependencies w source [] = (out, inr results) ->
     (rejected results <> [] /\
      run w source =
        ((out ++ [LogErrorFound (length (rejected results))])%list, 1)) \/
     (rejected results = [] /\ needsReview results <> [] /\
      run w source =
        ((out ++ [LogWarning (length (needsReview results))])%list, 0)) \/
     (rejected results = [] /\ needsReview results = [] /\
      run w source = ((out ++ [LogSuccess])%list, 0))).
Proof.
  split; [apply run_manifest_failure|].
  intros out results H. rewrite (run_finalized _ _ _ _ H).
  unfold conclude.
  destruct (rejected results) as [|r rs]; simpl.
  - destruct (needsReview results) as [|n ns]; simpl.
    + right; right. split; [reflexivity|]. split; reflexivity.
    + right; left. split; [reflexivity|]. split; [discriminate | reflexivity].
  - left. split; [discriminate | reflexivity].
Qed.

(** Three runs on the sample manifest: with a registry that knows no
    license every dependency is rejected; with a listed license and no
    statistics every dependency needs review; without a readable manifest
    the run stops at once. *)
Lemma run_exit_status_witness :
  run (Examples.project None None (ParsedObject Examples.manifest)) "."
  = ([LogChecking "left-pad"; LogMark StatusRejected;
      LogChecking "chalk"; LogMark StatusRejected;
      LogChecking "jest"; LogMark StatusRejected;
      LogErrorFound 3], 1)
  /\ run (Examples.project (Some "MIT") None (ParsedObject Examples.manifest)) "."
  = ([LogChecking "left-pad"; LogMark StatusNeedsReview;
      LogChecking "chalk"; LogMark StatusNeedsReview;
      LogChecking "jest"; LogMark StatusNeedsReview;
      LogWarning 3], 0)
  /\ run (Examples.registry None None) "." = ([LogErrorReading ReadFailed], 1).
Proof.
  split; [|split].
  - destruct (proj2 (run_exit_status
                       (Examples.project None None (ParsedObject Examples.manifest)) ".")
                    _ _ eq_refl) as [[_ H] | [[H _] | [H _]]];
      [exact H | discriminate H | discriminate H].
  - destruct (proj2 (run_exit_status
                       (Examples.project (Some "MIT") None
                          (ParsedObject Examples.manifest)) ".")
                    _ _ eq_refl) as [[H _] | [[_ [_ H]] | [_ [H _]]]];
      [exfalso; apply H; reflexivity | exact H | discriminate H].
  - exact (proj1 (run_exit_status (Examples.registry None None) ".")
                 _ _ eq_refl).
Defined.

(** ** The source selector *)

(** The longest slash-free prefix of a string is its first segment. *)
Lemma span_first_segment (s : string) : forall a r : string,
  Str.span (fun x => negb (Str.isChar "/" x)) s = (a, r) ->
  (r = EmptyString /\ splitSlash s = [a]) \/
  (exists r2, r = String "/" r2 /\ splitSlash s = a :: splitSlash r2).
Proof.
  induction s as [|c s IH]; intros a r; cbn [Str.span splitSlash].
  - intros H. injection H as <- <-. left. split; reflexivity.
  - destruct (Str.isChar "/" c) eqn:E; cbn [negb].
    + intros H. injection H as <- <-. right. exists s.
      apply Ascii.eqb_eq in E. subst c. split; reflexivity.
    + destruct (Str.span (fun x => negb (Str.isChar "/" x)) s) as [a' r'] eqn:Hs.
      intros H. injection H as <- <-.
      destruct (IH _ _ eq_refl) as [[-> Hsp] | [r2 [-> Hsp]]]; rewrite Hsp.
      * left. split; reflexivity.
      * right. exists r2. split; reflexivity.
Qed.

Lemma splitSlash_nonempty (s : string) : splitSlash s <> [].
Proof.
  destruct s as [|c s]; cbn [splitSlash]; [discriminate|].
  destruct (Str.isChar "/" c); [discriminate|].
  destruct (splitSlash s); discriminate.
Qed.

(** The second pattern matches the strings made of exactly two non-empty
    segments. *)
Lemma matchShorthand_segments (s a b : string) :
  matchShorthand s = Some (a, b) ->
  splitSlash s = [a; b] /\ a <> EmptyString /\ b <> EmptyString.
Proof.
  unfold matchShorthand.
  destruct (Str.span (fun x => negb (Str.isChar "/" x)) s) as [owner r1] eqn:H1.
  destruct owner as [|c owner]; [discriminate|].
  destruct r1 as [|d r2]; [discriminate|].
  destruct (Str.isChar "/" d) eqn:Ed; [|discriminate].
  destruct (Str.span (fun x => negb (Str.isChar "/" x)) r2) as [nm r3] eqn:H2.
  destruct nm as [|c' nm]; [discriminate|].
  destruct r3; [|discriminate].
  intros H. injection H as <- <-.
  destruct (span_first_segment _ _ _ H1) as [[Hr _] | [r2' [Hr Hsp]]];
    [discriminate Hr|].
  injection Hr as _ <-.
  destruct (span_first_segment _ _ _ H2) as [[_ Hsp2] | [r3' [Hr3 _]]];
    [|discriminate Hr3].
  rewrite Hsp, Hsp2. repeat split; discriminate.
Qed.

Lemma segments_matchShorthand (s a b : string) :
  splitSlash s = [a; b] -> a <> EmptyString -> b <> EmptyString ->
  matchShorthand s = Some (a, b).
Proof.
  intros Hs Ha Hb. unfold matchShorthand.
  destruct (Str.span (fun x => negb (Str.isChar "/" x)) s) as [owner r1] eqn:H1.
  destruct (span_first_segment _ _ _ H1) as [[-> Hsp] | [r2 [-> Hsp]]];
    rewrite Hsp in Hs; [discriminate Hs|].
  injection Hs as -> Hs2.
  destruct a as [|c a]; [congruence|].
  change (Str.isChar "/" "/") with true. cbv iota.
  destruct (Str.span (fun x => negb (Str.isChar "/" x)) r2) as [nm r3] eqn:H2.
  destruct (span_first_segment _ _ _ H2) as [[-> Hsp2] | [r4 [-> Hsp2]]];
    rewrite Hsp2 in Hs2.
  - injection Hs2 as ->. destruct b; [congruence|reflexivity].
  - injection Hs2 as _ Hs4. exfalso. exact (splitSlash_nonempty _ Hs4).
Qed.

(** A selector that no pattern matches is refused by the fetcher. *)
Lemma fetch_unmatched (w : World) (url : string) (out : list event) :
  matchUrl url = None -> matchShorthand url = None ->
  fetchPackageJsonFromGitHub w url out = (out, inl (Throw InvalidGitHubUrl)).
Proof.
  intros H1 H2. unfold fetchPackageJsonFromGitHub, ownerAndRepo.
  rewrite H1, H2. reflexivity.
Qed.

Lemma getPackageJson_github (w : World) (source : string) :
  Str.includes "/" source = true \/ Str.includes "github.com" source = true ->
  getPackageJson w source =
  try_catch (fetchPackageJsonFromGitHub w source)
    (fun e => console (LogErrorReading e) ;;; raise (Exit 1)).
Proof.
  intros H. unfold getPackageJson.
  replace (Str.includes "github.com" source || Str.includes "/" source) with true;
    [reflexivity|].
  symmetry. apply orb_true_iff. tauto.
Qed.

Lemma selector_not_help (source : string) :
  Str.includes "/" source = true \/ Str.includes "github.com" source = true ->
  String.eqb source "--help" || String.eqb source "-h" = false.
Proof.
  intros H.
  destruct (String.eqb_spec source "--help") as [->|_];
    [destruct H as [H|H]; discriminate H|].
  destruct (String.eqb_spec source "-h") as [->|_];
    [destruct H as [H|H]; discriminate H|].
  reflexivity.
Qed.

(** C10.  A selector that contains a slash or [github.com] is handed to
    the GitHub fetcher, and the local file system plays no part in the
    answer.  If moreover the first pattern matches nowhere in it and it is
    not made of exactly two non-empty slash-separated segments, the run
    reports the invalid format and exits with status 1; nothing else is
    written, so no dependency has been checked. *)
Theorem slash_selector_goes_to_github
    (w : World) (source : string) (more : list string) :
  Str.includes "/" source = true \/ Str.includes "github.com" source = true ->
  (forall out : list event,
     getPackageJson w source out =
     try_catch (fetchPackageJsonFromGitHub w source)
       (fun e => console (LogErrorReading e) ;;; raise (Exit 1)) out) /\
  (forall (fs : string -> option parsed) (out : list event),
     getPackageJson (with_read_local w fs) source out =
     getPackageJson w source out) /\
  (matchUrl source = None ->
   ~ (exists a b, splitSlash source = [a; b] /\ a <> EmptyString /\ b <> EmptyString) ->
   main w (source :: more) = ([LogErrorReading InvalidGitHubUrl], 1)).
Proof.
  intros Hsel.
  split; [intros out; rewrite (getPackageJson_github _ _ Hsel); reflexivity|].
  split.
  { intros fs out. rewrite !(getPackageJson_github _ _ Hsel). reflexivity. }
  intros Hurl Hseg.
  assert (Hshort : matchShorthand source = None).
  { destruct (matchShorthand source) as [[a b]|] eqn:E; [|reflexivity].
    exfalso. apply Hseg. exists a, b. apply matchShorthand_segments, E. }
  unfold main. rewrite (selector_not_help _ Hsel).
  unfold run, verifyDependencies, auditDependencies, bind.
  rewrite (getPackageJson_github _ _ Hsel). unfold try_catch.
  rewrite (fetch_unmatched _ _ _ Hurl Hshort). reflexivity.
Qed.

Lemma slash_selector_goes_to_github_witness :
  splitSlash "/path/to/project" = [EmptyString; "path"; "to"; "project"] /\
  forall w : World,
    main w ["/path/to/project"] = ([LogErrorReading InvalidGitHubUrl], 1).
Proof.
  split; [reflexivity|].
  intros w.
  refine (proj2 (proj2 (slash_selector_goes_to_github w "/path/to/project" []
                          (or_introl eq_refl))) eq_refl _).
  intros [a [b [H _]]]. discriminate H.
Defined.

(** * Further properties of the script *)

(** ** Strings *)

Lemma allChars_app (p : ascii -> bool) (a b : string) :
  allChars p (a ++ b) = allChars p a && allChars p b.
Proof.
  induction a as [|c a IH]; [reflexivity|].
  cbn [append allChars]. rewrite IH, andb_assoc. reflexivity.
Qed.

Lemma allChars_weaken (p q : ascii -> bool) (s : string) :
  (forall c, p c = true -> q c = true) ->
  allChars p s = true -> allChars q s = true.
Proof.
  intros Hpq. induction s as [|c s IH]; [reflexivity|].
  cbn [allChars]. rewrite !andb_true_iff. intros [Hc Hs]. auto.
Qed.

Lemma allChars_substring (p : ascii -> bool) (s : string) : forall n : nat,
  allChars p s = true -> allChars p (substring 0 n s) = true.
Proof.
  induction s as [|c s IH]; intros n H.
  - destruct n; reflexivity.
  - cbn [allChars] in H. apply andb_true_iff in H as [Hc Hs].
    destruct n as [|n]; [reflexivity|].
    cbn [substring allChars]. rewrite Hc. apply IH, Hs.
Qed.

(** What [span] cuts: a prefix inside the class, and a rest that is empty
    or starts outside it. *)
Lemma span_spec (p : ascii -> bool) (s : string) : forall a r : string,
  Str.span p s = (a, r) ->
  s = a ++ r /\ allChars p a = true /\
  (r = EmptyString \/ exists c r', r = String c r' /\ p c = false).
Proof.
  induction s as [|c s IH]; intros a r; cbn [Str.span].
  - intros H. injection H as <- <-. auto.
  - destruct (p c) eqn:E.
    + destruct (Str.span p s) as [a' r'] eqn:Hs. intros H. injection H as <- <-.
      destruct (IH _ _ eq_refl) as [-> [Ha Hr]].
      cbn [append allChars]. rewrite E, Ha. auto.
    + intros H. injection H as <- <-. repeat split; eauto.
Qed.

Lemma span_app (p : ascii -> bool) (a r : string) :
  allChars p a = true ->
  (r = EmptyString \/ exists c r', r = String c r' /\ p c = false) ->
  Str.span p (a ++ r) = (a, r).
Proof.
  intros Ha Hr. induction a as [|c a IH].
  - cbn [append]. destruct Hr as [->|[c [r' [-> Hc]]]]; [reflexivity|].
    cbn [Str.span]. rewrite Hc. reflexivity.
  - cbn [allChars] in Ha. apply andb_true_iff in Ha as [Hc Ha].
    cbn [append Str.span]. rewrite Hc, (IH Ha). reflexivity.
Qed.

Lemma string_length_app (a b : string) :
  String.length (a ++ b) = (String.length a + String.length b)%nat.
Proof. induction a as [|c a IH]; [reflexivity|]. cbn. rewrite IH. reflexivity. Qed.

Lemma substring_prefix (a b : string) :
  substring 0 (String.length a) (a ++ b) = a.
Proof.
  induction a as [|c a IH]; cbn [String.length append].
  - destruct b; reflexivity.
  - cbn [substring]. rewrite IH. reflexivity.
Qed.

Lemma dropLast_app (s p : string) : Str.dropLast (String.length p) (s ++ p) = s.
Proof.
  unfold Str.dropLast. rewrite string_length_app, Nat.add_sub. apply substring_prefix.
Qed.

Lemma endsWith_app (s p : string) : Str.endsWith p (s ++ p) = true.
Proof.
  induction s as [|c s IH].
  - cbn [append]. destruct p; cbn [Str.endsWith]; rewrite String.eqb_refl;
      reflexivity.
  - cbn [append Str.endsWith]. rewrite IH. apply orb_true_r.
Qed.

Lemma endsWith_suffix (p s : string) :
  Str.endsWith p s = true -> exists a, s = a ++ p.
Proof.
  induction s as [|c s IH]; cbn [Str.endsWith]; intros H.
  - rewrite orb_false_r in H. apply String.eqb_eq in H. subst p.
    exists EmptyString. reflexivity.
  - apply orb_true_iff in H as [H|H].
    + apply String.eqb_eq in H. subst p. exists EmptyString. reflexivity.
    + destruct (IH H) as [a ->]. exists (String c a). reflexivity.
Qed.

(** ** License lookup *)

(** X1.  [getPackageLicense] never answers the empty string, and an answer
    other than the sentinel is what the registry printed for the cleaned
    specification. *)
Theorem getPackageLicense_answer (w : World) (packageSpec : string) :
  getPackageLicense w packageSpec <> EmptyString /\
  (getPackageLicense w packageSpec = "Unknown" \/
   npm_view w (Str.replaceDecorator packageSpec) "license"
     = Some (getPackageLicense w packageSpec)).
Proof.
  unfold getPackageLicense.
  destruct (npm_view w (Str.replaceDecorator packageSpec) "license") as [l|].
  - destruct (String.eqb_spec l EmptyString) as [->|Hne].
    + split; [discriminate | left; reflexivity].
    + split; [exact Hne | right; reflexivity].
  - split; [discriminate | left; reflexivity].
Qed.

(** ** Repository lookup *)

Lemma matchRepoHere_shape (s m : string) :
  matchRepoHere s = Some m ->
  exists owner nm,
    m = owner ++ "/" ++ nm /\ owner <> EmptyString /\ nm <> EmptyString /\
    allChars (fun x => Str.isWord x || Str.isChar "-" x) owner = true /\
    allChars (fun x => Str.isWord x || Str.isChar "." x || Str.isChar "-" x) nm = true.
Proof.
  unfold matchRepoHere.
  destruct (Str.dropPrefix "github.com" s) as [[|c rest]|]; try discriminate.
  destruct (Str.isChar "/" c || Str.isChar ":" c); [|discriminate].
  destruct (Str.span (fun x => Str.isWord x || Str.isChar "-" x) rest)
    as [owner r1] eqn:H1.
  destruct owner as [|o owner]; [discriminate|].
  destruct r1 as [|d r2]; [discriminate|].
  destruct (Str.isChar "/" d); [|discriminate].
  destruct (Str.span (fun x => Str.isWord x || Str.isChar "." x || Str.isChar "-" x) r2)
    as [nm r3] eqn:H2.
  destruct nm as [|n nm]; [discriminate|].
  intros H. injection H as <-.
  destruct (span_spec _ _ _ _ H1) as [_ [Ho _]].
  destruct (span_spec _ _ _ _ H2) as [_ [Hn _]].
  exists (String o owner), (String n nm). repeat split; try discriminate; assumption.
Qed.

Lemma matchRepo_shape (s m : string) :
  matchRepo s = Some m ->
  exists owner nm,
    m = owner ++ "/" ++ nm /\ owner <> EmptyString /\ nm <> EmptyString /\
    allChars (fun x => Str.isWord x || Str.isChar "-" x) owner = true /\
    allChars (fun x => Str.isWord x || Str.isChar "." x || Str.isChar "-" x) nm = true.
Proof.
  induction s as [|c s IH]; cbn [matchRepo].
  - destruct (matchRepoHere EmptyString) eqn:E; [|discriminate].
    intros H. injection H as <-. apply (matchRepoHere_shape _ _ E).
  - destruct (matchRepoHere (String c s)) eqn:E.
    + intros H. injection H as <-. apply (matchRepoHere_shape _ _ E).
    + exact IH.
Qed.

Lemma repoChar_owner (c : ascii) :
  Str.isWord c || Str.isChar "-" c = true -> repoChar c = true.
Proof.
  unfold repoChar. destruct (Str.isWord c), (Str.isChar "-" c),
    (Str.isChar "." c); simpl; congruence.
Qed.

Lemma repoChar_name (c : ascii) :
  Str.isWord c || Str.isChar "." c || Str.isChar "-" c = true -> repoChar c = true.
Proof.
  unfold repoChar. destruct (Str.isWord c), (Str.isChar "-" c),
    (Str.isChar "." c); simpl; congruence.
Qed.

Lemma stripDotGit_allChars (p : ascii -> bool) (s : string) :
  allChars p s = true -> allChars p (Str.stripDotGit s) = true.
Proof.
  intros H. unfold Str.stripDotGit, Str.dropLast.
  destruct (Str.endsWith ".git" s); [apply allChars_substring, H | exact H].
Qed.

Lemma getPackageRepo_shape (w : World) (packageSpec r : string) :
  getPackageRepo w packageSpec = Some r ->
  r <> EmptyString /\ allChars repoChar r = true.
Proof.
  unfold getPackageRepo.
  destruct (npm_view w (Str.replaceDecorator packageSpec) "repository.url")
    as [out|]; [|discriminate].
  destruct (matchRepo out) as [m|] eqn:E; [|discriminate].
  intros H. injection H as <-.
  destruct (matchRepo_shape _ _ E) as [owner [nm [-> [Ho [Hn [Hoc Hnc]]]]]].
  assert (Hsafe : allChars repoChar (owner ++ "/" ++ nm) = true).
  { rewrite !allChars_app.
    rewrite (allChars_weaken _ _ _ repoChar_owner Hoc).
    rewrite (allChars_weaken _ _ _ repoChar_name Hnc). reflexivity. }
  split; [|apply stripDotGit_allChars, Hsafe].
  unfold Str.stripDotGit.
  destruct (Str.endsWith ".git" (owner ++ "/" ++ nm)) eqn:Eg.
  - destruct (endsWith_suffix _ _ Eg) as [a Ha]. rewrite Ha.
    change 4%nat with (String.length ".git"). rewrite dropLast_app.
    intros ->. cbn [append] in Ha.
    destruct owner as [|o owner]; [congruence|].
    cbn [append] in Ha. injection Ha as -> _.
    cbn [allChars] in Hoc. discriminate Hoc.
  - destruct owner; [congruence|discriminate].
Qed.

Lemma repoVariations_allChars (r : string) :
  allChars repoChar r = true ->
  Forall (fun x => allChars repoChar x = true) (repoVariations r).
Proof.
  intros H. unfold repoVariations.
  assert (Hd : allChars repoChar (Str.dropLast 3 r) = true)
    by (apply allChars_substring, H).
  assert (H1 : allChars repoChar (r ++ ".js") = true)
    by (rewrite allChars_app, H; reflexivity).
  assert (H2 : allChars repoChar (r ++ "-js") = true)
    by (rewrite allChars_app, H; reflexivity).
  destruct (Str.endsWith ".js" r), (Str.endsWith "-js" r);
    repeat constructor; assumption.
Qed.

(** X2.  A repository found by [getPackageRepo] is not empty, and every
    name that [getGitHubStats] then puts in the [gh api repos/...] command
    is made of word characters, dots, hyphens and slashes only. *)
Theorem repository_names_are_plain (w : World) (packageSpec r : string) :
  getPackageRepo w packageSpec = Some r ->
  r <> EmptyString /\
  Forall (fun x => allChars repoChar x = true) (repoVariations r).
Proof.
  intros H. destruct (getPackageRepo_shape _ _ _ H) as [Hne Hc].
  split; [exact Hne | apply repoVariations_allChars, Hc].
Qed.

Lemma repository_names_are_plain_witness :
  getPackageRepo (Examples.registry None None) "left-pad@1.3.0" = Some "a/b" /\
  Forall (fun x => allChars repoChar x = true) (repoVariations "a/b").
Proof.
  split; [reflexivity|].
  exact (proj2 (repository_names_are_plain (Examples.registry None None)
                  "left-pad@1.3.0" "a/b" eq_refl)).
Defined.

(** ** Repository statistics *)

Lemma firstStats_none (w : World) (names : list string) :
  firstStats w names = None <->
  Forall (fun x => gh_api_repos w x = None) names.
Proof.
  induction names as [|x names IH]; cbn [firstStats].
  - split; [constructor | reflexivity].
  - destruct (gh_api_repos w x) as [d|] eqn:E.
    + split; [discriminate|]. intros H. inversion H; congruence.
    + rewrite IH. split; [constructor; assumption|].
      intros H. inversion H; assumption.
Qed.

Lemma firstStats_some (w : World) (names : list string) (st : GitHubStats) :
  firstStats w names = Some st ->
  exists pre post data,
    names = (pre ++ actualRepo st :: post)%list /\
    Forall (fun x => gh_api_repos w x = None) pre /\
    gh_api_repos w (actualRepo st) = Some data /\
    stars st = stargazers_count data /\
    forks st = forks_count data /\
    created st = created_at data /\
    age st = ageInMonths (clock w (actualRepo st)) (created_at data).
Proof.
  induction names as [|x names IH]; cbn [firstStats]; [discriminate|].
  destruct (gh_api_repos w x) as [d|] eqn:E.
  - intros H. injection H as <-. cbn.
    exists [], names, d. repeat split; [constructor | exact E].
  - intros H. destruct (IH H) as [pre [post [data [-> [Hpre Hrest]]]]].
    exists (x :: pre), post, data.
    split; [reflexivity|]. split; [constructor; assumption | exact Hrest].
Qed.

(** X3.  For a repository name that is not empty, [getGitHubStats] answers
    [null] exactly when none of the five names it tries resolves. *)
Theorem getGitHubStats_null (w : World) (r : string) :
  r <> EmptyString ->
  (getGitHubStats w (Some r) = None <->
   Forall (fun x => gh_api_repos w x = None) (repoVariations r)).
Proof.
  intros Hne. unfold getGitHubStats.
  destruct (String.eqb_spec r EmptyString) as [->|_]; [congruence|].
  apply firstStats_none.
Qed.

Lemma getGitHubStats_null_witness :
  getGitHubStats (Examples.registry None None) (Some "a/b") = None <->
  Forall (fun x => gh_api_repos (Examples.registry None None) x = None)
         (repoVariations "a/b").
Proof.
  apply (getGitHubStats_null (Examples.registry None None) "a/b").
  discriminate.
Defined.

(** X4.  Statistics that [getGitHubStats] returns are those of the first
    name, in the order tried, that resolves: every name before
    [actualRepo] failed, and the counters and the creation date are the
    ones GitHub gave for [actualRepo]. *)
Theorem getGitHubStats_first_resolved
    (w : World) (repo : option string) (st : GitHubStats) :
  getGitHubStats w repo = Some st ->
  exists r pre post data,
    repo = Some r /\
    repoVariations r = (pre ++ actualRepo st :: post)%list /\
    Forall (fun x => gh_api_repos w x = None) pre /\
    gh_api_repos w (actualRepo st) = Some data /\
    stars st = stargazers_count data /\
    forks st = forks_count data /\
    created st = created_at data.
Proof.
  unfold getGitHubStats. destruct repo as [r|]; [|discriminate].
  destruct (String.eqb r EmptyString); [discriminate|].
  intros H.
  destruct (firstStats_some _ _ _ H)
    as [pre [post [data [Hv [Hpre [Hd [Hs [Hf [Hc _]]]]]]]]].
  exists r, pre, post, data. repeat split; assumption.
Qed.

(** GitHub knows [a/b.js] only: the second name tried is the one kept. *)
Lemma getGitHubStats_first_resolved_witness :
  exists st,
    getGitHubStats
      {| npm_view := fun _ _ => None;
         gh_api_repos := fun r =>
           if String.eqb r "a/b.js" then Some Examples.popular else None;
         clock := fun _ => 0;
         gh_api_contents := fun _ _ => None;
         curl_raw := fun _ _ => None;
         read_local := fun _ => None |} (Some "a/b") = Some st /\
    actualRepo st = "a/b.js" /\ stars st = Num 50.
Proof.
  eexists. split; [reflexivity|]. split; [reflexivity|].
  destruct (getGitHubStats_first_resolved
              {| npm_view := fun _ _ => None;
                 gh_api_repos := fun r =>
                   if String.eqb r "a/b.js" then Some Examples.popular else None;
                 clock := fun _ => 0;
                 gh_api_contents := fun _ _ => None;
                 curl_raw := fun _ _ => None;
                 read_local := fun _ => None |} (Some "a/b") _ eq_refl)
    as [r [pre [post [data [_ [_ [_ [Hd [Hs _]]]]]]]]].
  rewrite Hs. cbn in Hd. injection Hd as <-. reflexivity.
Defined.

Lemma months_threshold (x : Z) (n : Z) :
  n <= x / (1000 * 60 * 60 * 24 * 30) <-> n * (1000 * 60 * 60 * 24 * 30) <= x.
Proof.
  change (1000 * 60 * 60 * 24 * 30) with 2592000000.
  pose proof (Z.mul_div_le x 2592000000 ltac:(lia)).
  pose proof (Z.mod_pos_bound x 2592000000 ltac:(lia)).
  pose proof (Z.div_mod x 2592000000 ltac:(lia)).
  split; intros; nia.
Qed.

(** X5.  The age test of the adoption gate counts months of thirty days:
    statistics pass [age >= 12] exactly when 360 days, in milliseconds,
    have passed between the creation date and the clock; without a
    readable creation date they never pass. *)
Theorem age_test_is_360_days
    (w : World) (repo : option string) (st : GitHubStats) :
  getGitHubStats w repo = Some st ->
  match created st with
  | Some c =>
      js_ge (age st) 12 = true <->
      360 * (1000 * 60 * 60 * 24) <= clock w (actualRepo st) - c
  | None => js_ge (age st) 12 = false
  end.
Proof.
  unfold getGitHubStats. destruct repo as [r|]; [|discriminate].
  destruct (String.eqb r EmptyString); [discriminate|].
  intros H.
  destruct (firstStats_some _ _ _ H)
    as [pre [post [data [_ [_ [_ [_ [_ [Hc Ha]]]]]]]]].
  rewrite Ha, Hc. destruct (created_at data) as [c|]; [|reflexivity].
  cbn [ageInMonths js_ge]. rewrite Z.leb_le, months_threshold. lia.
Qed.

Lemma age_test_is_360_days_witness :
  exists st,
    getGitHubStats (Examples.registry None (Some Examples.popular)) (Some "a/b")
      = Some st /\
    created st = Some 0 /\
    (js_ge (age st) 12 = true <->
     360 * (1000 * 60 * 60 * 24)
       <= clock (Examples.registry None (Some Examples.popular)) (actualRepo st) - 0).
Proof.
  eexists. split; [reflexivity|]. split; [reflexivity|].
  exact (age_test_is_360_days
           (Examples.registry None (Some Examples.popular)) (Some "a/b") _ eq_refl).
Defined.

(** ** Cleaning, continued *)

Lemma countDecorators_app (a b : string) :
  Str.countDecorators (a ++ b)
  = (Str.countDecorators a + Str.countDecorators b)%nat.
Proof.
  induction a as [|c a IH]; [reflexivity|].
  cbn [append Str.countDecorators]. rewrite IH. lia.
Qed.

Lemma replaceDecorator_app (a b : string) :
  Str.replaceDecorator (a ++ b) =
  if (Str.countDecorators a =? 0)%nat then a ++ Str.replaceDecorator b
  else Str.replaceDecorator a ++ b.
Proof.
  induction a as [|c a IH]; [reflexivity|].
  cbn [append Str.replaceDecorator Str.countDecorators].
  destruct (Str.isChar "^" c || Str.isChar "~" c); [reflexivity|].
  cbn [Nat.add]. rewrite IH.
  destruct (Str.countDecorators a =? 0)%nat; reflexivity.
Qed.

Lemma lookupSpec_used (w : World) (packageName v : string) :
  getPackageLicense w (packageName ++ "@" ++ Str.replaceDecorator v) =
    match npm_view w (lookupSpec packageName v) "license" with
    | Some l => if String.eqb l EmptyString then "Unknown" else l
    | None => "Unknown"
    end /\
  getPackageRepo w (packageName ++ "@" ++ Str.replaceDecorator v) =
    match npm_view w (lookupSpec packageName v) "repository.url" with
    | Some repoOutput =>
        match matchRepo repoOutput with
        | Some m => Some (Str.stripDotGit m)
        | None => None
        end
    | None => None
    end.
Proof. split; reflexivity. Qed.

(** X6.  The version kept in the result has lost one decorator, and the
    specification handed to [npm view] has lost one more, taken from the
    package name if it holds one.  So for a package name free of carets
    and tildes the specification looked up is free of them exactly when
    the declared version holds at most two. *)
Theorem lookup_decorators_left
    (w : World) (packageName v : string) (r : Result) :
  checkPackageCompliance w packageName (JString v) = inr r ->
  Str.countDecorators (version r) = pred (Str.countDecorators v) /\
  license r = getPackageLicense w (packageName ++ "@" ++ version r) /\
  Str.replaceDecorator (packageName ++ "@" ++ version r) = lookupSpec packageName v /\
  Str.countDecorators (lookupSpec packageName v)
    = pred (Str.countDecorators packageName + pred (Str.countDecorators v)) /\
  (Str.countDecorators packageName = 0%nat ->
   (Str.countDecorators (lookupSpec packageName v) = 0%nat <->
    (Str.countDecorators v <= 2)%nat)).
Proof.
  unfold checkPackageCompliance. intros H. injection H as <-.
  rewrite apply_policy_version, apply_policy_license. cbn [version license].
  split; [apply replaceDecorator_count|].
  split; [reflexivity|]. split; [reflexivity|].
  unfold lookupSpec.
  rewrite replaceDecorator_count, !countDecorators_app, replaceDecorator_count.
  cbn [Str.countDecorators]. change (Str.isChar "^" "@" || Str.isChar "~" "@") with false.
  cbv iota. split; lia.
Qed.

Lemma lookup_decorators_left_witness :
  exists r,
    checkPackageCompliance (Examples.registry (Some "MIT") None)
      "left-pad" (JString "^1.3.0") = inr r /\
    version r = "1.3.0" /\
    lookupSpec "left-pad" "^1.3.0" = "left-pad@1.3.0" /\
    Str.countDecorators (lookupSpec "left-pad" "^1.3.0") = 0%nat.
Proof.
  eexists. split; [reflexivity|]. split; [reflexivity|]. split; [reflexivity|].
  destruct (lookup_decorators_left (Examples.registry (Some "MIT") None)
              "left-pad" "^1.3.0" _ eq_refl) as [_ [_ [_ [_ H]]]].
  apply H; [reflexivity|]. cbn. lia.
Defined.

(** X7.  The specification that is looked up for the license, in full.
    With a package name free of carets and tildes, the name is looked up
    as declared and the version without its first two decorators; with a
    name that holds one, the second cleaning falls on the name, so the
    license of another package name is looked up. *)
Theorem license_lookup_target
    (w : World) (packageName v : string) (r : Result) :
  checkPackageCompliance w packageName (JString v) = inr r ->
  license r =
    match npm_view w
            (if (Str.countDecorators packageName =? 0)%nat
             then packageName ++ "@" ++ Str.replaceDecorator (Str.replaceDecorator v)
             else Str.replaceDecorator packageName ++ "@" ++ Str.replaceDecorator v)
            "license" with
    | Some l => if String.eqb l EmptyString then "Unknown" else l
    | None => "Unknown"
    end.
Proof.
  unfold checkPackageCompliance. intros H. injection H as <-.
  rewrite apply_policy_license. cbn [license]. unfold getPackageLicense.
  rewrite replaceDecorator_app.
  destruct (Str.countDecorators packageName =? 0)%nat; reflexivity.
Qed.

(** A tilde in the package name: the registry is asked for [left~pad]
    under the name [leftpad]. *)
Lemma license_lookup_target_witness :
  exists r,
    checkPackageCompliance
      {| npm_view := fun spec _ =>
           if String.eqb spec "leftpad@^1.3.0" then Some "MIT" else None;
         gh_api_repos := fun _ => None;
         clock := fun _ => 0;
         gh_api_contents := fun _ _ => None;
         curl_raw := fun _ _ => None;
         read_local := fun _ => None |}
      "left~pad" (JString "^^1.3.0") = inr r /\
    license r = "MIT".
Proof.
  eexists. split; [reflexivity|].
  exact (license_lookup_target
           {| npm_view := fun spec _ =>
                if String.eqb spec "leftpad@^1.3.0" then Some "MIT" else None;
              gh_api_repos := fun _ => None;
              clock := fun _ => 0;
              gh_api_contents := fun _ _ => None;
              curl_raw := fun _ _ => None;
              read_local := fun _ => None |}
           "left~pad" "^^1.3.0" _ eq_refl).
Defined.

(** ** The merged dependency object *)

Lemma obj_set_in_inv {V : Type} (o : list (string * V)) (k : string) (v : V)
    (e : string * V) :
  In e (obj_set o k v) -> e = (k, v) \/ In e o.
Proof.
  induction o as [|[k0 v0] o IH]; simpl.
  - intros [H|[]]; auto.
  - destruct (String.eqb k k0); simpl; intros [H|H]; auto.
    destruct (IH H); auto.
Qed.

Lemma fold_set_in_inv {V : Type} (l : list (string * V)) :
  forall (o : list (string * V)) (e : string * V),
    In e (fold_left (fun t e => obj_set t (fst e) (snd e)) l o) ->
    In e l \/ In e o.
Proof.
  induction l as [|[k0 v0] l IH]; simpl; intros o e H; [auto|].
  destruct (IH _ _ H) as [H1|H1]; [auto|].
  destruct (obj_set_in_inv _ _ _ _ H1) as [->|H2]; auto.
Qed.

Lemma NoDup_keys_functional {V : Type} (o : list (string * V)) (k : string)
    (v v' : V) :
  NoDup (map fst o) -> In (k, v) o -> In (k, v') o -> v = v'.
Proof.
  induction o as [|[k0 v0] o IH]; simpl; intros Hnd H1 H2; [contradiction|].
  inversion Hnd as [|? ? Hnotin Hnd']; subst.
  destruct H1 as [H1|H1], H2 as [H2|H2].
  - congruence.
  - injection H1 as -> ->. exfalso. apply Hnotin.
    change k with (fst (k, v')). apply in_map, H2.
  - injection H2 as -> ->. exfalso. apply Hnotin.
    change k with (fst (k, v)). apply in_map, H1.
  - eauto.
Qed.

(** X8.  The merged object, entry by entry: a name declared in
    [devDependencies] has the version given there, and a name declared in
    [dependencies] only keeps its version; there is nothing else. *)
Theorem allDependencies_entries
    (p : PackageJson) (k : string) (v : json_value) :
  NoDup (map fst (dependencies p)) ->
  NoDup (map fst (devDependencies p)) ->
  (In (k, v) (allDependencies p) <->
   In (k, v) (devDependencies p) \/
   (In (k, v) (dependencies p) /\ ~ In k (map fst (devDependencies p)))).
Proof.
  intros Hdeps Hdev. split.
  - intros Hin.
    destruct (in_dec string_dec k (map fst (devDependencies p))) as [Hk|Hk].
    + left. apply in_map_iff in Hk as [[k' v'] [Hfst Hin']].
      simpl in Hfst. subst k'.
      pose proof (dev_entry_wins p k v' Hdev Hin') as Hwin.
      rewrite (NoDup_keys_functional _ _ _ _ (allDependencies_NoDup p) Hin Hwin).
      exact Hin'.
    + unfold allDependencies, spread at 1 in Hin.
      destruct (fold_set_in_inv _ _ _ Hin) as [H|H].
      * left. eapply Permutation_in; [apply Object_entries_perm | exact H].
      * right. split; [|exact Hk].
        unfold spread in H. destruct (fold_set_in_inv _ _ _ H) as [H'|[]].
        eapply Permutation_in; [apply Object_entries_perm | exact H'].
  - intros [Hin | [Hin Hk]].
    + apply dev_entry_wins; assumption.
    + unfold allDependencies, spread at 1. apply fold_set_keeps.
      * unfold spread. apply fold_set_last.
        -- apply Object_entries_NoDup, Hdeps.
        -- eapply Permutation_in;
             [apply Permutation_sym, Object_entries_perm | exact Hin].
      * rewrite Object_entries_keys. exact Hk.
Qed.

Lemma allDependencies_entries_witness :
  In ("left-pad", JString "1.2.0") (allDependencies Examples.manifest) /\
  In ("chalk", JString "~5.0.0") (allDependencies Examples.manifest) /\
  ~ In ("left-pad", JString "^1.3.0") (allDependencies Examples.manifest).
Proof.
  assert (H1 : NoDup (map fst (dependencies Examples.manifest))).
  { repeat constructor; simpl; intuition discriminate. }
  assert (H2 : NoDup (map fst (devDependencies Examples.manifest))).
  { repeat constructor; simpl; intuition discriminate. }
  split; [|split].
  - apply (allDependencies_entries Examples.manifest _ _ H1 H2).
    left. simpl. auto.
  - apply (allDependencies_entries Examples.manifest _ _ H1 H2).
    right. split; [simpl; auto | simpl; intuition discriminate].
  - intros H. apply (allDependencies_entries Examples.manifest _ _ H1 H2) in H.
    simpl in H. intuition discriminate.
Defined.

Lemma existsb_eqb_In (k : string) (ks : list string) :
  existsb (String.eqb k) ks = true <-> In k ks.
Proof.
  rewrite existsb_exists. split.
  - intros [x [Hin Heq]]. apply String.eqb_eq in Heq. subst x. exact Hin.
  - intros Hin. exists k. split; [exact Hin | apply String.eqb_refl].
Qed.

Lemma obj_set_keys_list {V : Type} (o : list (string * V)) (k : string) (v : V) :
  map fst (obj_set o k v) =
  if existsb (String.eqb k) (map fst o) then map fst o
  else (map fst o ++ [k])%list.
Proof.
  induction o as [|[k0 v0] o IH]; [reflexivity|].
  cbn [obj_set map fst existsb].
  destruct (String.eqb_spec k k0) as [->|Hne]; [reflexivity|].
  cbn [orb map fst]. rewrite IH.
  destruct (existsb (String.eqb k) (map fst o)); reflexivity.
Qed.

Lemma fold_set_keys_list {V : Type} (l : list (string * V)) :
  forall o : list (string * V),
    NoDup (map fst l) ->
    map fst (fold_left (fun t e => obj_set t (fst e) (snd e)) l o) =
    (map fst o
     ++ filter (fun k => negb (existsb (String.eqb k) (map fst o))) (map fst l))%list.
Proof.
  induction l as [|[k v] l IH]; intros o Hnd.
  - cbn. rewrite app_nil_r. reflexivity.
  - inversion Hnd as [|? ? Hnotin Hnd']; subst.
    cbn [fold_left map fst snd filter]. rewrite (IH _ Hnd'), obj_set_keys_list.
    destruct (existsb (String.eqb k) (map fst o)) eqn:E; cbn [negb].
    + reflexivity.
    + rewrite <- app_assoc. cbn [app]. do 2 f_equal.
      apply filter_ext_in. intros x Hx.
      rewrite existsb_app. cbn [existsb].
      destruct (String.eqb_spec x k) as [->|_]; [contradiction|].
      rewrite !orb_false_r. reflexivity.
Qed.

Lemma Object_entries_named {V : Type} (o : list (string * V)) :
  Forall (fun k => arrayIndex k = None) (map fst o) ->
  Object_entries o = o.
Proof.
  intros H. unfold Object_entries.
  assert (Hidx : indexProperties o = []).
  { induction o as [|[k v] o IH]; [reflexivity|].
    cbn [map fst] in H. inversion H as [|? ? Hk Ho]; subst.
    cbn [indexProperties]. rewrite Hk. exact (IH Ho). }
  rewrite Hidx. cbn [map app].
  induction o as [|[k v] o IH]; [reflexivity|].
  cbn [map fst] in H. inversion H as [|? ? Hk Ho]; subst.
  cbn [indexProperties] in Hidx. rewrite Hk in Hidx.
  cbn [filter]. unfold isNamed at 1. cbn [fst]. rewrite Hk.
  rewrite (IH Ho Hidx). reflexivity.
Qed.

(** X9.  When no dependency name is an array index, the dependencies are
    checked in the order of the manifest: the names of [dependencies] as
    declared, then the names that only [devDependencies] declares, as
    declared. *)
Theorem dependencies_checked_in_manifest_order (p : PackageJson) :
  NoDup (map fst (dependencies p)) ->
  NoDup (map fst (devDependencies p)) ->
  Forall (fun k => arrayIndex k = None) (map fst (dependencies p)) ->
  Forall (fun k => arrayIndex k = None) (map fst (devDependencies p)) ->
  map fst (Object_entries (allDependencies p)) =
  (map fst (dependencies p)
   ++ filter (fun k => negb (existsb (String.eqb k) (map fst (dependencies p))))
        (map fst (devDependencies p)))%list.
Proof.
  intros Hnd1 Hnd2 Hn1 Hn2.
  assert (Hkeys : map fst (allDependencies p) =
                  (map fst (dependencies p)
                   ++ filter (fun k => negb (existsb (String.eqb k)
                                               (map fst (dependencies p))))
                        (map fst (devDependencies p)))%list).
  { unfold allDependencies, spread.
    rewrite !Object_entries_named by assumption.
    rewrite fold_set_keys_list by assumption.
    rewrite fold_set_keys_list by assumption.
    cbn [map app existsb negb].
    rewrite forallb_filter_id; [reflexivity|].
    apply forallb_forall. reflexivity. }
  rewrite Object_entries_named; [exact Hkeys|].
  rewrite Hkeys. apply Forall_app. split; [exact Hn1|].
  apply Forall_forall. intros k Hk. apply filter_In in Hk as [Hk _].
  rewrite Forall_forall in Hn2. apply Hn2, Hk.
Qed.

Lemma dependencies_checked_in_manifest_order_witness :
  map fst (Object_entries (allDependencies Examples.manifest))
  = ["left-pad"; "chalk"; "jest"].
Proof.
  refine (dependencies_checked_in_manifest_order Examples.manifest _ _ _ _).
  - repeat constructor; simpl; intuition discriminate.
  - repeat constructor; simpl; intuition discriminate.
  - repeat constructor.
  - repeat constructor.
Defined.

(** ** The batch loop, continued *)

Lemma dispatch_log (acc : Report) (r : Result) (out : list event) :
  status r <> StatusUnknown ->
  fst (dispatch acc r out) = (out ++ [LogMark (status r)])%list.
Proof.
  unfold dispatch. destruct (status r); try reflexivity. congruence.
Qed.

(** The loop either reaches its end, and then every version is a string,
    or stops on the first version that is not one. *)
Lemma checkEach_outcome (w : World) (entries : list (string * json_value)) :
  forall (acc : Report) (out : list event),
    match checkEach w entries acc out with
    | (_, inr _) => forallb isStringVersion entries = true
    | (_, inl a) =>
        a = Throw ReplaceNotAFunction /\
        forallb isStringVersion entries = false
    end.
Proof.
  induction entries as [|[n v] rest IH]; intros acc out; [reflexivity|].
  cbn [checkEach forallb]. unfold bind at 1 2, console, lift.
  destruct v as [s|].
  - change (isStringVersion (n, JString s)) with true. cbn [andb].
    change (checkPackageCompliance w n (JString s))
      with (@inr abort Result
              (apply_policy
                 {| name := n; version := Str.replaceDecorator s;
                    license := getPackageLicense w (n ++ "@" ++ Str.replaceDecorator s);
                    repo := getPackageRepo w (n ++ "@" ++ Str.replaceDecorator s);
                    githubStats :=
                      getGitHubStats w
                        (getPackageRepo w (n ++ "@" ++ Str.replaceDecorator s));
                    status := StatusUnknown; reason := EmptyString |})).
    cbv iota. unfold bind.
    match goal with
    | |- context [dispatch acc ?r ?o] =>
        destruct (dispatch_buckets acc r o) as [out1 [acc1 [Hd _]]]; rewrite Hd
    end.
    apply IH.
  - split; reflexivity.
Qed.

Lemma forallb_Permutation {A : Type} (f : A -> bool) (l l' : list A) :
  Permutation l l' -> forallb f l = forallb f l'.
Proof.
  induction 1; cbn [forallb]; try congruence.
  rewrite !andb_assoc, (andb_comm (f y) (f x)). reflexivity.
Qed.

(** X11.  A version that is not a string, anywhere in the merged
    dependency object, makes the whole run fail: the error of
    [version.replace] is reported, the exit status is 1 and no summary is
    concluded, whatever was found for the dependencies checked before. *)
Theorem non_string_version_aborts
    (w : World) (source : string) (p : PackageJson) (out0 : list event) :
  getPackageJson w source [] = (out0, inr (ParsedObject p)) ->
  forallb isStringVersion (allDependencies p) = false ->
  exists out,
    auditDependencies w source [] = (out, inl (Throw ReplaceNotAFunction)) /\
    run w source = ((out ++ [LogError ReplaceNotAFunction])%list, 1).
Proof.
  intros Hpkg Hv.
  pose proof (auditDependencies_object _ _ _ _ Hpkg) as Haudit.
  rewrite <- (forallb_Permutation _ _ _ (Object_entries_perm (allDependencies p)))
    in Hv.
  pose proof (checkEach_outcome w (Object_entries (allDependencies p))
                {| approved := []; needsReview := []; rejected := [] |} out0) as H.
  destruct (checkEach w (Object_entries (allDependencies p)) _ out0)
    as [out [a|results]] eqn:E.
  - destruct H as [-> _]. exists out. split; [exact Haudit|].
    unfold run, verifyDependencies, bind. rewrite Haudit. reflexivity.
  - congruence.
Qed.

Lemma non_string_version_aborts_witness :
  run (Examples.project (Some "MIT") None
         (ParsedObject {| dependencies := [("left-pad", JString "^1.3.0");
                                           ("chalk", JNotString)];
                          devDependencies := [] |})) "."
  = ([LogChecking "left-pad"; LogMark StatusNeedsReview; LogChecking "chalk";
      LogError ReplaceNotAFunction], 1).
Proof.
  destruct (non_string_version_aborts
              (Examples.project (Some "MIT") None
                 (ParsedObject {| dependencies := [("left-pad", JString "^1.3.0");
                                                   ("chalk", JNotString)];
                                  devDependencies := [] |})) "."
              _ [] eq_refl eq_refl) as [out [Ha Hr]].
  injection Ha as <-. exact Hr.
Defined.

Lemma auditDependencies_abort (w : World) (source : string)
    (out : list event) (a : abort) :
  auditDependencies w source [] = (out, inl a) ->
  a = Exit 1 \/ exists e, a = Throw e.
Proof.
  unfold auditDependencies, bind.
  destruct (getPackageJson w source []) as [out0 [a0|[|p]]] eqn:Hpkg.
  - intros H. injection H as _ <-.
    left. exact (proj1 (getPackageJson_abort _ _ _ _ _ Hpkg)).
  - intros H. injection H as _ <-. right. eauto.
  - intros H.
    pose proof (checkEach_outcome w (Object_entries (allDependencies p))
                  {| approved := []; needsReview := []; rejected := [] |} out0) as Ho.
    rewrite H in Ho. destruct Ho as [-> _]. right. eauto.
Qed.

(** X12.  The exit status of a run is 0 or 1, and it is 0 exactly when the
    audit produced a report whose rejected bucket is empty. *)
Theorem exit_status_zero_iff_nothing_rejected (w : World) (source : string) :
  (snd (run w source) = 0 \/ snd (run w source) = 1) /\
  (snd (run w source) = 0 <->
   exists out results,
     auditDependencies w source [] = (out, inr results) /\
     rejected results = []).
Proof.
  destruct (auditDependencies w source []) as [out [a|results]] eqn:Haudit.
  - assert (Hrun : snd (run w source) = 1).
    { unfold run, verifyDependencies, bind. rewrite Haudit.
      destruct (auditDependencies_abort _ _ _ _ Haudit) as [->|[e ->]];
        reflexivity. }
    rewrite Hrun. split; [auto|]. split; [discriminate|].
    intros [o [r [H _]]]. discriminate H.
  - rewrite (run_finalized _ _ _ _ Haudit). unfold conclude.
    destruct (rejected results) as [|r rs] eqn:Hrej; cbn [length Nat.ltb Nat.leb].
    + destruct (needsReview results); cbn [length];
        unfold console; cbn [snd];
        (split; [left; reflexivity|]);
        (split; [intros _; exists out, results; split;
                   [reflexivity | exact Hrej]
                | reflexivity]).
    + cbn. split; [auto|]. split; [discriminate|].
      intros [o [r' [H Hr]]]. injection H as _ <-. congruence.
Qed.

Lemma checkEach_trace (w : World) (entries : list (string * json_value)) :
  forall (acc : Report) (out out' : list event) (results : Report),
    checkEach w entries acc out = (out', inr results) ->
    exists rs : list Result,
      Forall2 (fun e r => checkPackageCompliance w (fst e) (snd e) = inr r)
              entries rs /\
      out' = (out ++ flat_map turnLines rs)%list.
Proof.
  induction entries as [|[n v] rest IH]; intros acc out out' results H.
  - unfold checkEach, ret in H. injection H as <- _.
    exists []. split; [constructor | cbn; rewrite app_nil_r; reflexivity].
  - cbn [checkEach] in H. unfold bind at 1 2, console, lift in H.
    destruct (checkPackageCompliance w n v) as [e|r] eqn:Hr; [discriminate H|].
    unfold bind in H.
    pose proof (dispatch_log acc r (out ++ [LogChecking n])%list
                  (checkPackageCompliance_status _ _ _ _ Hr)) as Hlog.
    destruct (dispatch_buckets acc r (out ++ [LogChecking n])%list)
      as [out1 [acc1 [Hd _]]].
    rewrite Hd in H, Hlog. cbn [fst] in Hlog. subst out1.
    destruct (IH _ _ _ _ H) as [rs [Hall ->]].
    exists (r :: rs). split; [constructor; [exact Hr | exact Hall]|].
    cbn [flat_map].
    change (turnLines r) with [LogChecking (name r); LogMark (status r)].
    rewrite (checkPackageCompliance_name _ _ _ _ Hr).
    rewrite <- !app_assoc. reflexivity.
Qed.

(** X13.  What the loop of an audit that reaches its end writes: for each
    entry of the merged object, in the order of [Object.entries], the
    [Checking <name>...] text followed by the mark of the verdict of that
    dependency, and no other recorded line. *)
Theorem audit_console
    (w : World) (source : string) (p : PackageJson)
    (out0 out : list event) (results : Report) :
  getPackageJson w source [] = (out0, inr (ParsedObject p)) ->
  auditDependencies w source [] = (out, inr results) ->
  exists rs : list Result,
    Forall2 (fun e r => checkPackageCompliance w (fst e) (snd e) = inr r)
            (Object_entries (allDependencies p)) rs /\
    out = (out0 ++ flat_map turnLines rs)%list.
Proof.
  intros Hpkg Haudit.
  rewrite (auditDependencies_object _ _ _ _ Hpkg) in Haudit.
  exact (checkEach_trace _ _ _ _ _ _ Haudit).
Qed.

Lemma audit_console_witness :
  exists out results rs,
    auditDependencies
      (Examples.project (Some "MIT") None (ParsedObject Examples.manifest))
      "." [] = (out, inr results) /\
    map name rs = ["left-pad"; "chalk"; "jest"] /\
    out = flat_map turnLines rs.
Proof.
  destruct (audit_console
              (Examples.project (Some "MIT") None (ParsedObject Examples.manifest))
              "." Examples.manifest [] _ _ eq_refl eq_refl) as [rs [Hall Hout]].
  eexists. eexists. exists rs.
  split; [reflexivity|].
  split; [|exact Hout].
  destruct (Forall2_names _ _ _ Hall) as [Hn _]. rewrite Hn. reflexivity.
Defined.

(** X14.  Each bucket of the report lists its results in the order in which
    the loop met them: it is the sequence of all results, filtered by the
    status of the bucket. *)
Theorem buckets_keep_order
    (w : World) (source : string) (p : PackageJson)
    (out0 out : list event) (results : Report) :
  getPackageJson w source [] = (out0, inr (ParsedObject p)) ->
  auditDependencies w source [] = (out, inr results) ->
  exists rs : list Result,
    Forall2 (fun e r => checkPackageCompliance w (fst e) (snd e) = inr r)
            (Object_entries (allDependencies p)) rs /\
    approved results = filter (has_status StatusApproved) rs /\
    needsReview results = filter (has_status StatusNeedsReview) rs /\
    rejected results = filter (has_status StatusRejected) rs.
Proof.
  intros Hpkg Haudit.
  rewrite (auditDependencies_object _ _ _ _ Hpkg) in Haudit.
  exact (checkEach_inr _ _ _ _ _ _ Haudit).
Qed.

Lemma buckets_keep_order_witness :
  exists out results rs,
    auditDependencies
      (Examples.project (Some "MIT") None (ParsedObject Examples.manifest))
      "." [] = (out, inr results) /\
    map name rs = ["left-pad"; "chalk"; "jest"] /\
    needsReview results = filter (has_status StatusNeedsReview) rs.
Proof.
  destruct (buckets_keep_order
              (Examples.project (Some "MIT") None (ParsedObject Examples.manifest))
              "." Examples.manifest [] _ _ eq_refl eq_refl)
    as [rs [Hall [_ [Hn _]]]].
  eexists. eexists. exists rs. split; [reflexivity|].
  split; [|exact Hn].
  destruct (Forall2_names _ _ _ Hall) as [Hnames _]. rewrite Hnames. reflexivity.
Defined.

(** ** Parsing the source selector *)

Lemma dropPrefix_spec (p s rest : string) :
  Str.dropPrefix p s = Some rest -> s = p ++ rest.
Proof.
  revert s. induction p as [|a p IH]; intros s; cbn [Str.dropPrefix].
  - intros H. injection H as ->. reflexivity.
  - destruct s as [|b s]; [discriminate|].
    destruct (Ascii.eqb_spec a b) as [->|_]; [|discriminate].
    intros H. rewrite (IH _ H). reflexivity.
Qed.

Lemma dropPrefix_app (p rest : string) : Str.dropPrefix p (p ++ rest) = Some rest.
Proof.
  induction p as [|a p IH]; [reflexivity|].
  cbn [append Str.dropPrefix]. rewrite Ascii.eqb_refl. exact IH.
Qed.

Lemma slashes_app (a b : string) : slashes (a ++ b) = (slashes a + slashes b)%nat.
Proof.
  induction a as [|c a IH]; [reflexivity|].
  cbn [append slashes]. rewrite IH. lia.
Qed.

Lemma splitSlash_length (s : string) : length (splitSlash s) = S (slashes s).
Proof.
  induction s as [|c s IH]; [reflexivity|].
  cbn [splitSlash slashes]. destruct (Str.isChar "/" c).
  - cbn [length]. rewrite IH. reflexivity.
  - destruct (splitSlash s) as [|x xs]; cbn [length] in IH |- *; lia.
Qed.

Lemma matchUrlHere_slashes (s : string) (m : string * string) :
  matchUrlHere s = Some m -> (2 <= slashes s)%nat.
Proof.
  unfold matchUrlHere.
  destruct (Str.dropPrefix "github.com/" s) as [rest|] eqn:Hp; [|discriminate].
  destruct (Str.span (fun x => negb (Str.isChar "/" x)) rest) as [owner r1] eqn:H1.
  destruct owner as [|o owner]; [discriminate|].
  destruct r1 as [|d r2]; [discriminate|].
  destruct (Str.isChar "/" d) eqn:Ed; [|discriminate].
  intros _.
  rewrite (dropPrefix_spec _ _ _ Hp).
  destruct (span_spec _ _ _ _ H1) as [-> _].
  rewrite !slashes_app. cbn [slashes]. rewrite Ed.
  change (Str.isChar "/" "/") with true. cbv iota.
  repeat match goal with
         | |- context [if Str.isChar "/" ?c then _ else _] =>
             destruct (Str.isChar "/" c)
         end; lia.
Qed.

Lemma matchUrl_slashes (s : string) (m : string * string) :
  matchUrl s = Some m -> (2 <= slashes s)%nat.
Proof.
  induction s as [|c s IH]; cbn [matchUrl].
  - destruct (matchUrlHere EmptyString) eqn:E; [|discriminate].
    intros _. exact (matchUrlHere_slashes _ _ E).
  - destruct (matchUrlHere (String c s)) eqn:E.
    + intros _. exact (matchUrlHere_slashes _ _ E).
    + intros H. specialize (IH H). cbn [slashes]. lia.
Qed.

Lemma two_segments_are_owner_and_repo_aux (source a b : string) :
  splitSlash source = [a; b] -> a <> EmptyString -> b <> EmptyString ->
  ownerAndRepo source = Some (a, Str.stripDotGit b).
Proof.
  intros Hs Ha Hb. unfold ownerAndRepo.
  destruct (matchUrl source) as [m|] eqn:E.
  - exfalso. pose proof (matchUrl_slashes _ _ E) as H.
    pose proof (splitSlash_length source) as Hl. rewrite Hs in Hl.
    cbn [length] in Hl. lia.
  - rewrite (segments_matchShorthand _ _ _ Hs Ha Hb). reflexivity.
Qed.

(** X15.  A selector made of exactly two non-empty segments is always
    read as [owner/repo], whatever the segments hold: the first segment is
    the owner and the second, without a final [.git], the repository. *)
Theorem two_segments_are_owner_and_repo (source a b : string) :
  splitSlash source = [a; b] -> a <> EmptyString -> b <> EmptyString ->
  ownerAndRepo source = Some (a, Str.stripDotGit b).
Proof. apply two_segments_are_owner_and_repo_aux. Qed.

(** An SSH address has two segments: its host and user end up in the
    owner. *)
Lemma two_segments_are_owner_and_repo_witness :
  ownerAndRepo "git@github.com:hashgraph-online/standards-sdk.git"
  = Some ("git@github.com:hashgraph-online", "standards-sdk").
Proof.
  refine (two_segments_are_owner_and_repo
            "git@github.com:hashgraph-online/standards-sdk.git"
            "git@github.com:hashgraph-online" "standards-sdk.git" eq_refl _ _);
    discriminate.
Defined.

Lemma matchUrl_here (s : string) (m : string * string) :
  matchUrlHere s = Some m -> matchUrl s = Some m.
Proof. intros H. destruct s; cbn [matchUrl]; rewrite H; reflexivity. Qed.

Lemma matchUrlHere_github (owner nm tail : string) :
  owner <> EmptyString ->
  allChars (fun x => negb (Str.isChar "/" x)) owner = true ->
  nm <> EmptyString ->
  allChars (fun x => negb (Str.isChar "/" x || Str.isChar "?" x)) nm = true ->
  (tail = EmptyString \/
   exists c t, tail = String c t /\ Str.isChar "/" c || Str.isChar "?" c = true) ->
  matchUrlHere ("github.com/" ++ owner ++ "/" ++ nm ++ tail) = Some (owner, nm).
Proof.
  intros Ho Hoc Hn Hnc Ht. unfold matchUrlHere.
  rewrite dropPrefix_app.
  rewrite (span_app _ owner ("/" ++ nm ++ tail) Hoc)
    by (right; eexists; eexists; split; reflexivity).
  destruct owner as [|o owner]; [congruence|].
  cbn [append]. change (Str.isChar "/" "/") with true. cbv iota.
  rewrite (span_app _ nm tail Hnc).
  - destruct nm; [congruence | reflexivity].
  - destruct Ht as [->|[c [t [-> Hc]]]]; [auto|].
    right. exists c, t. split; [reflexivity|]. rewrite Hc. reflexivity.
Qed.

(** X16.  A GitHub address [https://github.com/<owner>/<repo>], alone or
    followed by a path or a query, is read as that owner and that
    repository, a final [.git] of the repository name removed. *)
Theorem github_url_is_parsed (owner nm tail : string) :
  owner <> EmptyString ->
  allChars (fun x => negb (Str.isChar "/" x)) owner = true ->
  nm <> EmptyString ->
  allChars (fun x => negb (Str.isChar "/" x || Str.isChar "?" x)) nm = true ->
  (tail = EmptyString \/
   exists c t, tail = String c t /\ Str.isChar "/" c || Str.isChar "?" c = true) ->
  ownerAndRepo ("https://github.com/" ++ owner ++ "/" ++ nm ++ tail)
  = Some (owner, Str.stripDotGit nm).
Proof.
  intros Ho Hoc Hn Hnc Ht. unfold ownerAndRepo.
  set (y := "github.com/" ++ owner ++ "/" ++ nm ++ tail).
  change (matchUrl ("https://github.com/" ++ owner ++ "/" ++ nm ++ tail))
    with (matchUrl y).
  unfold y.
  rewrite (matchUrl_here _ _ (matchUrlHere_github _ _ _ Ho Hoc Hn Hnc Ht)).
  reflexivity.
Qed.

Lemma github_url_is_parsed_witness :
  ownerAndRepo "https://github.com/hashgraph-online/standards-sdk.git/tree/main"
  = Some ("hashgraph-online", "standards-sdk").
Proof.
  refine (github_url_is_parsed "hashgraph-online" "standards-sdk.git" "/tree/main"
            _ eq_refl _ eq_refl _).
  - discriminate.
  - discriminate.
  - right. eexists. eexists. split; reflexivity.
Defined.

(** ** Reading the repository address *)

Lemma matchRepo_here (s m : string) :
  matchRepoHere s = Some m -> matchRepo s = Some m.
Proof. intros H. destruct s; cbn [matchRepo]; rewrite H; reflexivity. Qed.

Lemma matchRepoHere_github (sep : ascii) (owner nm : string) :
  Str.isChar "/" sep || Str.isChar ":" sep = true ->
  owner <> EmptyString ->
  allChars (fun x => Str.isWord x || Str.isChar "-" x) owner = true ->
  nm <> EmptyString ->
  allChars (fun x => Str.isWord x || Str.isChar "." x || Str.isChar "-" x) nm = true ->
  matchRepoHere ("github.com" ++ String sep (owner ++ "/" ++ nm))
  = Some (owner ++ "/" ++ nm).
Proof.
  intros Hsep Ho Hoc Hn Hnc. unfold matchRepoHere.
  rewrite dropPrefix_app, Hsep.
  rewrite (span_app _ owner ("/" ++ nm) Hoc)
    by (right; eexists; eexists; split; reflexivity).
  destruct owner as [|o owner]; [congruence|].
  cbn [append]. change (Str.isChar "/" "/") with true. cbv iota.
  replace nm with (nm ++ EmptyString) at 1
    by (clear; induction nm as [|c nm IH]; [reflexivity | cbn; rewrite IH; reflexivity]).
  rewrite (span_app _ nm EmptyString Hnc) by auto.
  destruct nm; [congruence | reflexivity].
Qed.

Lemma append_assoc (a b c : string) : (a ++ b) ++ c = a ++ b ++ c.
Proof. induction a as [|x a IH]; [reflexivity|]. cbn. rewrite IH. reflexivity. Qed.

(** X17.  When the registry prints the repository address in the usual
    HTTPS form [git+https://github.com/<owner>/<name>.git] or in the SSH form
    [git@github.com:<owner>/<name>.git], [getPackageRepo] answers
    [<owner>/<name>]. *)
Theorem getPackageRepo_usual_forms
    (w : World) (packageSpec owner nm : string) :
  owner <> EmptyString ->
  allChars (fun x => Str.isWord x || Str.isChar "-" x) owner = true ->
  nm <> EmptyString ->
  allChars (fun x => Str.isWord x || Str.isChar "." x || Str.isChar "-" x) nm = true ->
  npm_view w (Str.replaceDecorator packageSpec) "repository.url"
    = Some ("git+https://github.com/" ++ owner ++ "/" ++ nm ++ ".git") \/
  npm_view w (Str.replaceDecorator packageSpec) "repository.url"
    = Some ("git@github.com:" ++ owner ++ "/" ++ nm ++ ".git") ->
  getPackageRepo w packageSpec = Some (owner ++ "/" ++ nm).
Proof.
  intros Ho Hoc Hn Hnc Hview.
  assert (Hnc' : allChars (fun x => Str.isWord x || Str.isChar "." x || Str.isChar "-" x)
                   (nm ++ ".git") = true)
    by (rewrite allChars_app, Hnc; reflexivity).
  assert (Hn' : nm ++ ".git" <> EmptyString) by (destruct nm; discriminate).
  assert (Hstrip : Str.stripDotGit (owner ++ "/" ++ nm ++ ".git") = owner ++ "/" ++ nm).
  { change (owner ++ "/" ++ nm ++ ".git") with (owner ++ ("/" ++ nm) ++ ".git").
    rewrite <- append_assoc. unfold Str.stripDotGit.
    rewrite endsWith_app. change 4%nat with (String.length ".git").
    apply dropLast_app. }
  unfold getPackageRepo.
  destruct Hview as [-> | ->].
  - set (y := "github.com" ++ String "/" (owner ++ "/" ++ nm ++ ".git")).
    change (matchRepo ("git+https://github.com/" ++ owner ++ "/" ++ nm ++ ".git"))
      with (matchRepo y).
    unfold y.
    rewrite (matchRepo_here _ _
               (matchRepoHere_github "/" owner (nm ++ ".git") eq_refl Ho Hoc Hn' Hnc')).
    rewrite Hstrip. reflexivity.
  - set (y := "github.com" ++ String ":" (owner ++ "/" ++ nm ++ ".git")).
    change (matchRepo ("git@github.com:" ++ owner ++ "/" ++ nm ++ ".git"))
      with (matchRepo y).
    unfold y.
    rewrite (matchRepo_here _ _
               (matchRepoHere_github ":" owner (nm ++ ".git") eq_refl Ho Hoc Hn' Hnc')).
    rewrite Hstrip. reflexivity.
Qed.

Lemma getPackageRepo_usual_forms_witness :
  getPackageRepo (Examples.registry None None) "left-pad@1.3.0" = Some "a/b".
Proof.
  refine (getPackageRepo_usual_forms (Examples.registry None None)
            "left-pad@1.3.0" "a" "b" _ eq_refl _ eq_refl (or_introl eq_refl));
    discriminate.
Defined.

(** ** The verdict, continued *)

(** X18.  The three verdicts, each with the exact condition under which
    [checkPackageCompliance] gives it.  In particular a rejection depends
    on the license alone, and missing or weak statistics can only lead to
    a review. *)
Theorem verdict_table
    (w : World) (packageName : string) (version : json_value) (r : Result) :
  checkPackageCompliance w packageName version = inr r ->
  (status r = StatusRejected <->
     isAutoApproved (license r) = false /\
     Set_has APPROVED_LICENSES (license r) = false) /\
  (status r = StatusApproved <->
     isAutoApproved (license r) = true \/
     (Set_has APPROVED_LICENSES (license r) = true /\
      exists st, githubStats r = Some st /\
        js_ge (age st) 12 && (js_ge (stars st) 10 || js_ge (forks st) 10) = true)) /\
  (status r = StatusNeedsReview <->
     Set_has APPROVED_LICENSES (license r) = true /\
     (githubStats r = None \/
      exists st, githubStats r = Some st /\
        js_ge (age st) 12 && (js_ge (stars st) 10 || js_ge (forks st) 10) = false)).
Proof.
  intros Hrun.
  destruct (checkPackageCompliance_inr _ _ _ _ Hrun) as [r0 [-> _]].
  rewrite apply_policy_license, apply_policy_githubStats.
  unfold apply_policy.
  destruct (isAutoApproved (license r0)) eqn:Hauto.
  - assert (Hset : Set_has APPROVED_LICENSES (license r0) = false).
    { destruct (Set_has APPROVED_LICENSES (license r0)) eqn:E; [|reflexivity].
      rewrite (conditional_not_auto _ E) in Hauto. discriminate. }
    rewrite Hset. cbn [status set_verdict].
    split; [split; [discriminate | intros [H _]; discriminate]|].
    split; [split; auto|].
    split; [discriminate | intros [H _]; discriminate].
  - destruct (Set_has APPROVED_LICENSES (license r0)) eqn:Hset.
    + destruct (githubStats r0) as [st|] eqn:Hst.
      * destruct (js_ge (age st) 12 && (js_ge (stars st) 10 || js_ge (forks st) 10))
          eqn:Hgate; cbn [status set_verdict].
        -- split; [split; [discriminate | intros [_ H]; discriminate]|].
           split; [split; [intros _; right; eauto | reflexivity]|].
           split; [discriminate|].
           intros [_ [H | [st' [H Hg]]]]; [discriminate|].
           injection H as <-. congruence.
        -- split; [split; [discriminate | intros [_ H]; discriminate]|].
           split.
           { split; [discriminate|].
             intros [H | [_ [st' [H Hg]]]]; [discriminate|].
             injection H as <-. congruence. }
           split; [intros _; split; [reflexivity | right; eauto] | reflexivity].
      * cbn [status set_verdict].
        split; [split; [discriminate | intros [_ H]; discriminate]|].
        split.
        { split; [discriminate|].
          intros [H | [_ [st' [H _]]]]; discriminate. }
        split; [intros _; auto | reflexivity].
    + cbn [status set_verdict].
      split; [split; auto|].
      split.
      { split; [discriminate|]. intros [H | [H _]]; discriminate. }
      split; [discriminate | intros [H _]; discriminate].
Qed.

Lemma verdict_table_witness :
  exists r,
    checkPackageCompliance (Examples.registry (Some "GPL-3.0") (Some Examples.popular))
      "left-pad" (JString "^1.3.0") = inr r /\
    license r = "GPL-3.0" /\ status r = StatusRejected.
Proof.
  eexists. split; [reflexivity|]. split; [reflexivity|].
  apply (verdict_table (Examples.registry (Some "GPL-3.0") (Some Examples.popular))
           "left-pad" (JString "^1.3.0") _ eq_refl).
  split; reflexivity.
Defined.

Lemma js_ge_mono (a b : jsnum) (n : Z) :
  num_le a b -> js_ge a n = true -> js_ge b n = true.
Proof.
  destruct a as [x| |]; cbn; try discriminate.
  intros [y [-> Hle]] H. cbn. apply Z.leb_le in H. apply Z.leb_le. lia.
Qed.

(** X19.  The adoption gate is monotone: for the same license, statistics
    with at least as many stars, as many forks and as great an age as
    statistics that were approved are approved too. *)
Theorem adoption_gate_monotone
    (w w' : World) (n n' : string) (v v' : json_value) (r r' : Result)
    (st st' : GitHubStats) :
  checkPackageCompliance w n v = inr r ->
  checkPackageCompliance w' n' v' = inr r' ->
  license r = license r' ->
  githubStats r = Some st ->
  githubStats r' = Some st' ->
  num_le (stars st) (stars st') ->
  num_le (forks st) (forks st') ->
  num_le (age st) (age st') ->
  status r = StatusApproved -> status r' = StatusApproved.
Proof.
  intros Hr Hr' Hlic Hst Hst' Hs Hf Ha.
  destruct (checkPackageCompliance_inr _ _ _ _ Hr) as [r0 [-> _]].
  destruct (checkPackageCompliance_inr _ _ _ _ Hr') as [r0' [-> _]].
  rewrite !apply_policy_license in Hlic.
  rewrite apply_policy_githubStats in Hst, Hst'.
  unfold apply_policy. rewrite <- Hlic, Hst, Hst'.
  destruct (isAutoApproved (license r0)); [reflexivity|].
  destruct (Set_has APPROVED_LICENSES (license r0)); [|discriminate].
  destruct (js_ge (age st) 12) eqn:Ea; [|discriminate].
  rewrite (js_ge_mono _ _ _ Ha Ea).
  destruct (js_ge (stars st) 10) eqn:Es.
  - rewrite (js_ge_mono _ _ _ Hs Es). reflexivity.
  - destruct (js_ge (forks st) 10) eqn:Ef; [|discriminate].
    rewrite (js_ge_mono _ _ _ Hf Ef).
    destruct (js_ge (stars st') 10); reflexivity.
Qed.

Lemma adoption_gate_monotone_witness :
  exists r r',
    checkPackageCompliance (Examples.registry (Some "MIT") (Some Examples.popular))
      "left-pad" (JString "^1.3.0") = inr r /\
    checkPackageCompliance
      (Examples.registry (Some "MIT")
         (Some {| stargazers_count := Num 60; forks_count := Num 5;
                  created_at := Some 0 |}))
      "chalk" (JString "~5.0.0") = inr r' /\
    status r = StatusApproved /\ status r' = StatusApproved.
Proof.
  eexists. eexists. split; [reflexivity|]. split; [reflexivity|].
  split; [reflexivity|].
  refine (adoption_gate_monotone
            (Examples.registry (Some "MIT") (Some Examples.popular))
            (Examples.registry (Some "MIT")
               (Some {| stargazers_count := Num 60; forks_count := Num 5;
                        created_at := Some 0 |}))
            "left-pad" "chalk" (JString "^1.3.0") (JString "~5.0.0") _ _ _ _
            eq_refl eq_refl eq_refl eq_refl eq_refl _ _ _ eq_refl).
  - exists 60. split; [reflexivity | cbn; lia].
  - exists 5. split; [reflexivity | cbn; lia].
  - exists 24. split; [reflexivity | cbn; lia].
Defined.

(** ** Names of repositories *)

Lemma allChars_no_slash (p : ascii -> bool) (s : string) :
  p "/"%char = false -> allChars p s = true -> slashes s = 0%nat.
Proof.
  intros Hp. induction s as [|c s IH]; [reflexivity|].
  cbn [allChars slashes]. intros H. apply andb_true_iff in H as [Hc Hs].
  rewrite (IH Hs). destruct (Str.isChar "/" c) eqn:E; [|reflexivity].
  apply Ascii.eqb_eq in E. subst c. congruence.
Qed.

Lemma getPackageRepo_one_slash (w : World) (packageSpec r : string) :
  getPackageRepo w packageSpec = Some r -> slashes r = 1%nat.
Proof.
  unfold getPackageRepo.
  destruct (npm_view w (Str.replaceDecorator packageSpec) "repository.url")
    as [out|]; [|discriminate].
  destruct (matchRepo out) as [m|] eqn:E; [|discriminate].
  intros H. injection H as <-.
  destruct (matchRepo_shape _ _ E) as [owner [nm [-> [_ [_ [Hoc Hnc]]]]]].
  assert (Hm : slashes (owner ++ "/" ++ nm) = 1%nat).
  { rewrite !slashes_app, (allChars_no_slash _ _ eq_refl Hoc),
      (allChars_no_slash _ _ eq_refl Hnc). reflexivity. }
  unfold Str.stripDotGit.
  destruct (Str.endsWith ".git" (owner ++ "/" ++ nm)) eqn:Eg; [|exact Hm].
  destruct (endsWith_suffix _ _ Eg) as [a Ha]. rewrite Ha in Hm |- *.
  change 4%nat with (String.length ".git"). rewrite dropLast_app.
  rewrite slashes_app in Hm. cbn in Hm. lia.
Qed.

Lemma repoVariations_one_slash (r : string) :
  slashes r = 1%nat -> Forall (fun x => slashes x = 1%nat) (repoVariations r).
Proof.
  intros H. unfold repoVariations.
  assert (H1 : slashes (r ++ ".js") = 1%nat) by (rewrite slashes_app, H; reflexivity).
  assert (H2 : slashes (r ++ "-js") = 1%nat) by (rewrite slashes_app, H; reflexivity).
  assert (Hd : forall suf, slashes suf = 0%nat -> String.length suf = 3%nat ->
                 Str.endsWith suf r = true -> slashes (Str.dropLast 3 r) = 1%nat).
  { intros suf Hs Hl He. destruct (endsWith_suffix _ _ He) as [a Ha].
    rewrite Ha, <- Hl, dropLast_app. rewrite Ha, slashes_app, Hs in H. lia. }
  destruct (Str.endsWith ".js" r) eqn:E1, (Str.endsWith "-js" r) eqn:E2;
    repeat constructor; try assumption;
    try (apply (Hd ".js"); [reflexivity | reflexivity | exact E1]);
    try (apply (Hd "-js"); [reflexivity | reflexivity | exact E2]).
Qed.

Lemma apply_policy_repo (r : Result) : repo (apply_policy r) = repo r.
Proof. destruct (apply_policy_verdict r) as [s [why ->]]. reflexivity. Qed.

(** X20.  For a result of [checkPackageCompliance], the [GitHub:] line of
    the needs-review listing is printed exactly when a repository was
    found, and it points to the name under which the statistics were
    resolved, or to the repository found when there are no statistics:
    neither name is ever empty, so the fallbacks of the line never
    apply. *)
Theorem review_link_target
    (w : World) (packageName : string) (version : json_value) (r : Result) :
  checkPackageCompliance w packageName version = inr r ->
  match repo r with
  | Some x =>
      reviewLink r =
      Some ("https://github.com/" ++
            match githubStats r with
            | Some st => actualRepo st
            | None => x
            end)
  | None => reviewLink r = None /\ githubStats r = None
  end.
Proof.
  destruct version as [v|]; [|discriminate].
  unfold checkPackageCompliance. intros H. injection H as <-.
  unfold reviewLink.
  rewrite apply_policy_repo, apply_policy_githubStats. cbn [repo githubStats].
  match goal with
  | |- context [getPackageRepo w ?sp] =>
      destruct (getPackageRepo w sp) as [x|] eqn:Hrepo
  end; [|split; reflexivity].
  destruct (getPackageRepo_shape _ _ _ Hrepo) as [Hne _].
  destruct (String.eqb_spec x EmptyString) as [->|_]; [congruence|].
  destruct (getGitHubStats w (Some x)) as [st|] eqn:Hst; [|reflexivity].
  unfold getGitHubStats in Hst.
  destruct (String.eqb x EmptyString); [discriminate|].
  destruct (firstStats_some _ _ _ Hst) as [pre [post [data [Hv _]]]].
  pose proof (repoVariations_one_slash _ (getPackageRepo_one_slash _ _ _ Hrepo))
    as Hall.
  rewrite Hv in Hall. apply Forall_app in Hall as [_ Hall].
  inversion Hall as [|? ? Hone _]; subst.
  destruct (String.eqb_spec (actualRepo st) EmptyString) as [He|_];
    [rewrite He in Hone; discriminate Hone | reflexivity].
Qed.

Lemma review_link_target_witness :
  exists r,
    checkPackageCompliance (Examples.registry (Some "MIT") None)
      "left-pad" (JString "^1.3.0") = inr r /\
    reviewLink r = Some "https://github.com/a/b".
Proof.
  eexists. split; [reflexivity|].
  exact (review_link_target (Examples.registry (Some "MIT") None)
           "left-pad" (JString "^1.3.0") _ eq_refl).
Defined.

(** X21.  The names tried for the statistics start with the repository
    name itself, and for a name that ends in [.js] or in [-js] they include
    the name without that ending. *)
Theorem repoVariations_strip_suffix (s : string) :
  hd_error (repoVariations s) = Some s /\
  In s (repoVariations (s ++ ".js")) /\
  In s (repoVariations (s ++ "-js")).
Proof.
  split; [reflexivity|].
  assert (H1 : Str.dropLast 3 (s ++ ".js") = s)
    by (change 3%nat with (String.length ".js"); apply dropLast_app).
  assert (H2 : Str.dropLast 3 (s ++ "-js") = s)
    by (change 3%nat with (String.length "-js"); apply dropLast_app).
  unfold repoVariations. split.
  - rewrite endsWith_app, H1. cbn [In]. auto.
  - rewrite (endsWith_app s "-js"), H2. cbn [In]. auto 6.
Qed.

(** ** A repository name that is only [.git] *)

Lemma includes_slash (a b : string) :
  Str.includes "/" (a ++ String "/" b) = true.
Proof.
  induction a as [|c a IH]; [reflexivity|].
  cbn [append]. cbn [Str.includes]. rewrite IH. apply orb_true_r.
Qed.

Lemma splitSlash_segment (a : string) :
  slashes a = 0%nat -> splitSlash a = [a].
Proof.
  induction a as [|c a IH]; [reflexivity|].
  cbn [slashes splitSlash]. destruct (Str.isChar "/" c); [discriminate|].
  intros H. rewrite (IH H). reflexivity.
Qed.

Lemma splitSlash_two (a b : string) :
  slashes a = 0%nat -> slashes b = 0%nat ->
  splitSlash (a ++ String "/" b) = [a; b].
Proof.
  intros Ha Hb. induction a as [|c a IH].
  - cbn [append splitSlash]. change (Str.isChar "/" "/") with true. cbv iota.
    rewrite (splitSlash_segment _ Hb). reflexivity.
  - cbn [slashes] in Ha. cbn [append splitSlash].
    destruct (Str.isChar "/" c); [discriminate|].
    rewrite (IH Ha). reflexivity.
Qed.

(** X22.  A shorthand whose repository part is exactly [.git] is refused:
    once the ending is removed nothing is left of the repository name, so
    the run reports the invalid format and exits with status 1 without
    asking GitHub for anything. *)
Theorem dot_git_repository_refused (w : World) (owner : string) (more : list string) :
  owner <> EmptyString -> slashes owner = 0%nat ->
  main w ((owner ++ "/.git") :: more) = ([LogErrorReading InvalidGitHubUrl], 1).
Proof.
  intros Ho Hs.
  assert (Hsel : Str.includes "/" (owner ++ "/.git") = true)
    by apply (includes_slash owner ".git").
  assert (Hparse : ownerAndRepo (owner ++ "/.git") = Some (owner, EmptyString)).
  { apply (two_segments_are_owner_and_repo_aux (owner ++ "/.git") owner ".git").
    - apply (splitSlash_two owner ".git" Hs eq_refl).
    - exact Ho.
    - discriminate. }
  unfold main. rewrite (selector_not_help _ (or_introl Hsel)).
  unfold run, verifyDependencies, auditDependencies, bind.
  rewrite (getPackageJson_github _ _ (or_introl Hsel)). unfold try_catch.
  unfold fetchPackageJsonFromGitHub. rewrite Hparse.
  rewrite String.eqb_refl, orb_true_r. reflexivity.
Qed.

Lemma dot_git_repository_refused_witness :
  main (Examples.registry None None) ["hashgraph-online/.git"]
  = ([LogErrorReading InvalidGitHubUrl], 1).
Proof.
  refine (dot_git_repository_refused (Examples.registry None None)
            "hashgraph-online" [] _ eq_refl).
  discriminate.
Defined.
